(** * Project mutation and audit trail: ProjectService.update and the
      sub-goal cost endpoint

    Shallow embedding of
    - [src/services/ImageService.js], class [ProjectService]
      (update, cleanUpdateData, shouldAddHistory, shouldAddHistoryForField,
      getHistoryType, getHistoryDescription, getDetailedChanges,
      getStatusText), and
    - [src/server.js], handlers [PUT /api/projects/:id] and
      [PUT /api/projects/:id/subgoals/:subgoalId/cost],

    and, around them, of
    - [src/services/ImageService.js], class [ImageService] (delete,
      deleteMultiple, validateImageFile, validateImageFiles) and the rest of
      class [ProjectService] (create, getById, delete, removeImage,
      cleanupImages),
    - [src/api/health.js], the part that is config/cloudinary.js
      (deleteImage),
    - [src/routes/projects.js], handlers [GET /:id], [PUT /:id] and
      [DELETE /:id], and
    - [src/server.js], handlers [GET /api/projects/:id],
      [POST /api/projects] and [DELETE /api/projects/:id].

    JavaScript objects (request bodies, stored documents) are finite maps from
    field names to JSON values; the MongoDB collection is a finite map from
    the document id to the document; the lock map [updateLocks] is a finite
    map too.  An [async] call is a task that moves from one [await] to the
    next in one atomic step (JavaScript runs to completion between awaits).

    The store sets fields: the keys of an update document are field names,
    taken literally; the path syntax of MongoDB (dots, [$]) in a key of a
    request body is not interpreted.  A store round trip that throws has
    written nothing.  Cloudinary is known by its answers, which are
    arbitrary. *)

From Stdlib Require Import ZArith String Ascii List Bool Lia.
From stdpp Require Import base option list gmap strings pretty.

Local Open Scope Z_scope.

(** ** JavaScript values *)

(** Numbers are the integers (amounts in the range where double arithmetic is
    exact) and NaN. *)
Inductive num :=
| Fin (z : Z)
| NaN.

#[warnings="-register-all"]
Inductive value :=
| VUndefined
| VNull
| VBool (b : bool)
| VNum (n : num)
| VStr (s : string)
| VArr (items : list value)
| VObj (fields : list (string * value)).

(** A JavaScript object used as a record: request body, stored document. *)
Abbreviation obj := (gmap string value).

(** [o.k]: an absent key reads as [undefined]. *)
Definition field (o : obj) (k : string) : value := default VUndefined (o !! k).

(** Field of a nested object literal (insertion-ordered). *)
Fixpoint assoc (k : string) (fs : list (string * value)) : value :=
  match fs with
  | [] => VUndefined
  | (k', v) :: r => if String.eqb k k' then v else assoc k r
  end.

Fixpoint assoc_set (k : string) (v : value) (fs : list (string * value))
  : list (string * value) :=
  match fs with
  | [] => [(k, v)]
  | (k', v') :: r =>
      if String.eqb k k' then (k, v) :: r else (k', v') :: assoc_set k v r
  end.

(** ToBoolean. *)
Definition truthy (v : value) : bool :=
  match v with
  | VUndefined | VNull => false
  | VBool b => b
  | VNum (Fin z) => negb (z =? 0)
  | VNum NaN => false
  | VStr s => negb (String.eqb s "")
  | VArr _ | VObj _ => true
  end.

(** [a || b] *)
Definition js_or (a b : value) : value := if truthy a then a else b.

Definition is_undefined (v : value) : bool :=
  match v with VUndefined => true | _ => false end.

(** StringToNumber on decimal integer literals with an optional sign; the empty
    string is 0 and every other string is NaN. *)
Definition digit_of (a : ascii) : option Z :=
  let n := nat_of_ascii a in
  if (Nat.leb 48 n && Nat.leb n 57)%bool then Some (Z.of_nat (n - 48)) else None.

Fixpoint parse_digits (acc : Z) (s : string) : option Z :=
  match s with
  | EmptyString => Some acc
  | String a r =>
      match digit_of a with
      | Some d => parse_digits (10 * acc + d) r
      | None => None
      end
  end.

Definition parse_unsigned (s : string) : num :=
  match s with
  | EmptyString => NaN
  | _ => match parse_digits 0 s with Some z => Fin z | None => NaN end
  end.

Definition StringToNumber (s : string) : num :=
  match s with
  | EmptyString => Fin 0
  | String "-" r =>
      match parse_unsigned r with Fin z => Fin (- z) | NaN => NaN end
  | String "+" r => parse_unsigned r
  | _ => parse_unsigned s
  end.

(** [Number(v)].  An array goes through its string form: the empty array is
    the empty string, a one-element array is its element's string form, and a
    longer one contains a comma. *)
Fixpoint Number (v : value) : num :=
  match v with
  | VUndefined => NaN
  | VNull => Fin 0
  | VBool b => if b then Fin 1 else Fin 0
  | VNum n => n
  | VStr s => StringToNumber s
  | VArr [] => Fin 0
  | VArr [x] =>
      match x with
      | VUndefined | VNull => Fin 0
      | VBool _ => NaN
      | _ => Number x
      end
  | VArr _ => NaN
  | VObj _ => NaN
  end.

(** [a !== b] on numbers is the negation of this: NaN equals nothing. *)
Definition num_strict_eq (a b : num) : bool :=
  match a, b with
  | Fin x, Fin y => x =? y
  | _, _ => false
  end.

(** [a === b].  The two sides always come from different parses (the request
    body and a stored document), so two arrays or two objects are never the
    same reference. *)
Definition strict_eq (a b : value) : bool :=
  match a, b with
  | VUndefined, VUndefined => true
  | VNull, VNull => true
  | VBool x, VBool y => Bool.eqb x y
  | VNum x, VNum y => num_strict_eq x y
  | VStr x, VStr y => String.eqb x y
  | _, _ => false
  end.

Definition num_add (a b : num) : num :=
  match a, b with Fin x, Fin y => Fin (x + y) | _, _ => NaN end.

Definition num_sub (a b : num) : num :=
  match a, b with Fin x, Fin y => Fin (x - y) | _, _ => NaN end.

(** [Number(v) || 0] and, more generally, [n || d] for a number [n] and a
    default [d]: zero and NaN are falsy. *)
Definition num_or (n : num) (d : Z) : Z :=
  match n with
  | Fin z => if z =? 0 then d else z
  | NaN => d
  end.

(** [v?.length] *)
Definition opt_length (v : value) : value :=
  match v with
  | VStr s => VNum (Fin (Z.of_nat (String.length s)))
  | VArr l => VNum (Fin (Z.of_nat (length l)))
  | VObj fs => assoc "length" fs
  | _ => VUndefined
  end.

(** ** Errors *)

Record Error := mkError { name : string; message : string }.

Definition TypeError (msg : string) : Error := mkError "TypeError" msg.
Definition PlainError (msg : string) : Error := mkError "Error" msg.

(** Result of a synchronous piece of code: a value or a thrown error. *)
Inductive Result (A : Type) :=
| Ok (a : A)
| Throw (e : Error).
Arguments Ok {A} a.
Arguments Throw {A} e.

Definition bind {A B} (r : Result A) (k : A -> Result B) : Result B :=
  match r with
  | Ok a => k a
  | Throw e => Throw e
  end.

Notation "x <- r ;; k" := (bind r (fun x => k))
  (at level 100, r at next level, right associativity).

(** [v.length] without optional chaining: reading a property of [null] or
    [undefined] throws. *)
Definition length_of (v : value) : Result value :=
  match v with
  | VUndefined | VNull => Throw (TypeError "Cannot read properties of null")
  | _ => Ok (opt_length v)
  end.

(** [v.k] for an element of a stored array. *)
Definition prop (v : value) (k : string) : Result value :=
  match v with
  | VUndefined | VNull => Throw (TypeError "Cannot read properties of null")
  | VObj fs => Ok (assoc k fs)
  | VStr _ | VArr _ => Ok (if String.eqb k "length" then opt_length v else VUndefined)
  | _ => Ok VUndefined
  end.

(** ** ProjectService: pure helpers (ImageService.js, lines 668-778) *)

Definition cleanUpdateData (data : obj) : obj :=
  delete "history" (delete "createdAt" (delete "_id" (delete "id" data))).

Definition shouldAddHistory (updateData : obj) : bool :=
  truthy (field updateData "status")
  || truthy (field updateData "subgoals")
  || negb (is_undefined (field updateData "totalCost")).

Definition shouldAddHistoryForField (fld : string) (newValue oldValue : value) : bool :=
  if String.eqb fld "totalCost" then
    negb (is_undefined newValue)
    && negb (num_strict_eq (Number newValue) (Number (js_or oldValue (VNum (Fin 0)))))
  else if String.eqb fld "status" then
    truthy newValue && negb (strict_eq newValue oldValue)
  else if String.eqb fld "subgoals" then
    let oldCount := js_or (opt_length oldValue) (VNum (Fin 0)) in
    let newCount := js_or (opt_length newValue) (VNum (Fin 0)) in
    negb (strict_eq newCount oldCount)
  else true.

(** The test [hasActualChanges] of update (lines 403-406). *)
Definition hasActualChanges (updateData currentProject : obj) : bool :=
  shouldAddHistoryForField "totalCost" (field updateData "totalCost") (field currentProject "totalCost")
  || shouldAddHistoryForField "status" (field updateData "status") (field currentProject "status")
  || shouldAddHistoryForField "subgoals" (field updateData "subgoals") (field currentProject "subgoals").

Definition getHistoryType (updateData : obj) : string :=
  if truthy (field updateData "status") then "status_changed"
  else if truthy (field updateData "subgoals") then "goals_updated"
  else if negb (is_undefined (field updateData "totalCost")) then "cost_updated"
  else "updated".

(** [statusMap[status]]: the five own entries of the table, looked up by a
    string key. *)
Definition statusMap (status : value) : value :=
  match status with
  | VStr s =>
      if String.eqb s "planning" then VStr "التخطيط"
      else if String.eqb s "in-progress" then VStr "قيد التنفيذ"
      else if String.eqb s "completed" then VStr "مكتمل"
      else if String.eqb s "on-hold" then VStr "معلق"
      else if String.eqb s "cancelled" then VStr "ملغي"
      else VUndefined
  | _ => VUndefined
  end.

Definition getStatusText (status : value) : value :=
  js_or (js_or (statusMap status) status) (VStr "غير محدد").

(** [currentProject?.k] *)
Definition opt_field (currentProject : option obj) (k : string) : value :=
  match currentProject with
  | Some p => field p k
  | None => VUndefined
  end.

(** The description is kept as the template chosen and its arguments; the
    rendering to localized text ([toLocaleString], string interpolation) is
    left out.  What is kept of the rendering is that it throws on a [null]
    cost: [newCost.toLocaleString()] at line 731. *)
Definition getHistoryDescription (updateData : obj) (currentProject : option obj)
  : Result value :=
  if truthy (field updateData "status") then
    let oldStatus := getStatusText (opt_field currentProject "status") in
    let newStatus := getStatusText (field updateData "status") in
    Ok (VObj [("template", VStr "status"); ("from", oldStatus); ("to", newStatus)])
  else if truthy (field updateData "subgoals") then
    let oldCount := js_or (opt_length (opt_field currentProject "subgoals")) (VNum (Fin 0)) in
    let newCount := opt_length (field updateData "subgoals") in
    Ok (VObj [("template", VStr "subgoals"); ("from", oldCount); ("to", newCount)])
  else if negb (is_undefined (field updateData "totalCost")) then
    let oldCost := js_or (opt_field currentProject "totalCost") (VNum (Fin 0)) in
    let newCost := field updateData "totalCost" in
    let difference := num_sub (Number newCost) (Number oldCost) in
    match newCost with
    | VNull => Throw (TypeError "Cannot read properties of null")
    | _ => Ok (VObj [("template", VStr "cost"); ("from", oldCost); ("to", newCost);
                     ("difference", VNum difference)])
    end
  else Ok (VObj [("template", VStr "generic")]).

Definition getDetailedChanges (updateData : obj) (currentProject : option obj) : value :=
  let c1 :=
    if truthy (field updateData "status") then
      [("status", VObj [("from", opt_field currentProject "status");
                        ("to", field updateData "status");
                        ("fromText", getStatusText (opt_field currentProject "status"));
                        ("toText", getStatusText (field updateData "status"))])]
    else [] in
  let c2 :=
    if negb (is_undefined (field updateData "totalCost")) then
      let oldCost := js_or (opt_field currentProject "totalCost") (VNum (Fin 0)) in
      [("totalCost", VObj [("from", oldCost);
                           ("to", field updateData "totalCost");
                           ("difference",
                            VNum (num_sub (Number (field updateData "totalCost")) (Number oldCost)))])]
    else [] in
  let c3 :=
    if truthy (field updateData "subgoals") then
      let oldCount := js_or (opt_length (opt_field currentProject "subgoals")) (VNum (Fin 0)) in
      let newCount := opt_length (field updateData "subgoals") in
      [("subgoals", VObj [("from", oldCount);
                          ("to", newCount);
                          ("difference", VNum (num_sub (Number newCount) (Number oldCount)))])]
    else [] in
  VObj (c1 ++ c2 ++ c3).

(** ** The document store *)

(** [$push: { history: { $each: [entry], $slice: n } }]; [push_slice] is
    [None] when the operator is given the entry alone. *)
Record PushSpec := mkPush { push_entry : value; push_slice : option Z }.

(** An update document: [$set] of top-level fields (each key names a field),
    optionally a positional [$set] of fields of the first sub-goal matched by
    the filter ['subgoals.id': subgoalId], and optionally a [$push] to
    [history]. *)
Record UpdateOps := mkOps {
  op_set : obj;
  op_positional : option (string * list (string * value));
  op_push : option PushSpec }.

(** The process and what it talks to: the [projects] collection keyed by
    document id, the static lock map of ProjectService, the errors that the
    coming store round trips will throw (one per round trip, oldest first),
    and the wall clock. *)
Record World := mkWorld {
  db : gmap string obj;
  updateLocks : gmap string bool;
  outage : list Error;
  clock : nat }.

Definition set_db (f : gmap string obj -> gmap string obj) (w : World) : World :=
  mkWorld (f (db w)) (updateLocks w) (outage w) (clock w).
Definition set_locks (f : gmap string bool -> gmap string bool) (w : World) : World :=
  mkWorld (db w) (f (updateLocks w)) (outage w) (clock w).
Definition set_outage (es : list Error) (w : World) : World :=
  mkWorld (db w) (updateLocks w) es (clock w).
Definition tick (w : World) : World :=
  mkWorld (db w) (updateLocks w) (outage w) (S (clock w)).

(** [new Date().toISOString()]: the clock reading, printed. *)
Definition toISOString (t : nat) : value := VStr (pretty t).

(** [ObjectId.isValid] on a string: 24 hexadecimal digits. *)
Definition is_hex (a : ascii) : bool :=
  let n := nat_of_ascii a in
  (Nat.leb 48 n && Nat.leb n 57) || (Nat.leb 65 n && Nat.leb n 70)
  || (Nat.leb 97 n && Nat.leb n 102).

Fixpoint all_hex (s : string) : bool :=
  match s with
  | EmptyString => true
  | String a r => is_hex a && all_hex r
  end.

Definition ObjectId_isValid (s : string) : bool :=
  Nat.eqb (String.length s) 24 && all_hex s.

(** One round trip to the store: it throws the next error of the outage, if
    any. *)
Definition round_trip (w : World) : Result unit * World :=
  match outage w with
  | [] => (Ok tt, w)
  | e :: es => (Throw e, set_outage es w)
  end.

(** [$slice: n]: a negative [n] keeps the last [-n] elements, otherwise the
    first [n]. *)
Definition lastn {A} (k : nat) (l : list A) : list A := drop (length l - k) l.

Definition mongo_slice {A} (n : Z) (l : list A) : list A :=
  if n <? 0 then lastn (Z.to_nat (- n)) l else take (Z.to_nat n) l.

Definition apply_push (p : PushSpec) (doc : obj) : Result obj :=
  match field doc "history" with
  | VUndefined =>
      Ok (<["history" := VArr (from_option (fun n => mongo_slice n [push_entry p])
                                           [push_entry p] (push_slice p))]> doc)
  | VArr h =>
      let h' := h ++ [push_entry p] in
      Ok (<["history" := VArr (from_option (fun n => mongo_slice n h') h' (push_slice p))]> doc)
  | _ => Throw (mkError "MongoServerError" "The field 'history' must be an array")
  end.

Definition is_subgoal (subgoalId : string) (sg : value) : bool :=
  match sg with
  | VObj fs => strict_eq (assoc "id" fs) (VStr subgoalId)
  | _ => false
  end.

Fixpoint set_first_subgoal (subgoalId : string) (sets : list (string * value))
  (l : list value) : option (list value) :=
  match l with
  | [] => None
  | sg :: r =>
      if is_subgoal subgoalId sg then
        match sg with
        | VObj fs => Some (VObj (fold_left (fun acc kv => assoc_set kv.1 kv.2 acc) sets fs) :: r)
        | _ => None
        end
      else cons sg <$> set_first_subgoal subgoalId sets r
  end.

(** The positional part: [None] when the filter matches no sub-goal. *)
Definition apply_positional (pos : option (string * list (string * value))) (doc : obj)
  : option obj :=
  match pos with
  | None => Some doc
  | Some (subgoalId, sets) =>
      match field doc "subgoals" with
      | VArr l => (fun l' => <["subgoals" := VArr l']> doc) <$> set_first_subgoal subgoalId sets l
      | _ => None
      end
  end.

(** The document after the update; [Ok None] when the positional filter does
    not match.  The store refuses to set [_id], which is immutable. *)
Definition apply_update (ops : UpdateOps) (doc : obj) : Result (option obj) :=
  match apply_positional (op_positional ops) doc with
  | None => Ok None
  | Some doc1 =>
      match op_set ops !! "_id" with
      | Some _ =>
          Throw (mkError "MongoServerError" "Performing an update on the path '_id' would modify the immutable field '_id'")
      | None =>
          let doc2 := op_set ops ∪ doc1 in
          match op_push ops with
          | None => Ok (Some doc2)
          | Some p => doc3 <- apply_push p doc2 ;; Ok (Some doc3)
          end
      end
  end.

(** Query filters: [{ _id: new ObjectId(id) }], [{ k: v }] and
    [{ _id: s }] for a plain string [s].  Every document of the collection
    has an ObjectId as its [_id], so the last one selects nothing. *)
Inductive Filter :=
| FId (id : string)
| FField (k : string) (v : value)
| FRawId (s : string).

Definition select (f : Filter) (docs : gmap string obj) : option (string * obj) :=
  match f with
  | FId id => (fun doc => (id, doc)) <$> docs !! id
  | FField k v => head (filter (fun kd => strict_eq (field kd.2 k) v = true) (map_to_list docs))
  | FRawId _ => None
  end.

(** [collection.findOne({ _id: new ObjectId(id) })] *)
Definition findOne (w : World) (id : string) : Result (option obj) * World :=
  match round_trip w with
  | (Throw e, w') => (Throw e, w')
  | (Ok _, w') => (Ok (db w' !! id), w')
  end.

(** [collection.findOneAndUpdate(filter, ops, { returnDocument: 'after' })]:
    one atomic round trip, answered with the updated document or [null]; it
    writes nothing when it throws or matches nothing. *)
Definition findOneAndUpdate (w : World) (f : Filter) (ops : UpdateOps)
  : Result (option obj) * World :=
  match round_trip w with
  | (Throw e, w') => (Throw e, w')
  | (Ok _, w') =>
      match select f (db w') with
      | None => (Ok None, w')
      | Some (id, doc) =>
          match apply_update ops doc with
          | Throw e => (Throw e, w')
          | Ok None => (Ok None, w')
          | Ok (Some doc') => (Ok (Some doc'), set_db (insert id doc') w')
          end
      end
  end.

(** ** ProjectService.update as a task (ImageService.js, lines 340-476) *)

Inductive Outcome :=
| Resolved (snapshot : obj)
| Rejected (e : Error).

(** Where an update call is suspended.  [Entry] is the call itself, about to
    run from line 341 (the first call, or the re-call of line 347 once the
    100 ms timer has fired). *)
Inductive Pc :=
| Entry (retryCount : nat)
| AwaitFindOne (retryCount : nat) (now : value)
| AwaitFindOneAndUpdate (retryCount : nat) (ops : UpdateOps)
| Backoff (retryCount : nat)
| Settled (o : Outcome).

(** [timers] logs the delays (ms) of the [setTimeout] calls awaited so far. *)
Record Task := mkTask {
  projectId : string;
  updateData : obj;
  pc : Pc;
  timers : list Z }.

Definition goto (p : Pc) (t : Task) : Task :=
  mkTask (projectId t) (updateData t) p (timers t).
Definition sleep (ms : Z) (t : Task) : Task :=
  mkTask (projectId t) (updateData t) (pc t) (timers t ++ [ms]).

(** [ProjectService.update(projectId, updateData)] *)
Definition update (projectId : string) (updateData : obj) : Task :=
  mkTask projectId updateData (Entry 0) [].

Definition maxRetries : nat := 3.

Definition is_transient (e : Error) : bool :=
  String.eqb (name e) "MongoNetworkTimeoutError" || String.eqb (name e) "MongoServerError".

(** [this.updateLocks.delete(projectId)] *)
Definition release (id : string) (w : World) : World := set_locks (delete id) w.

(** Lines 445-454: the log of the latest history entry reads four properties
    of [result.history[result.history.length - 1]]. *)
Definition element (h : value) (i : Z) : value :=
  match h with
  | VArr l => default VUndefined (l !! Z.to_nat i)
  | VStr s => match String.get (Z.to_nat i) s with
              | Some a => VStr (String a EmptyString)
              | None => VUndefined
              end
  | VObj fs => assoc (pretty i) fs
  | _ => VUndefined
  end.

Definition log_latest_entry (result : obj) : Result unit :=
  let h := field result "history" in
  if truthy h then
    match Number (opt_length h) with
    | Fin len =>
        if 0 <? len then _ <- prop (element h (len - 1)) "type" ;; Ok tt else Ok tt
    | NaN => Ok tt
    end
  else Ok tt.

(** Lines 375-429: the update document built from the patch and the snapshot
    read (if any). *)
Definition historyEntry (updateData : obj) (currentProject : option obj) (now : value)
  : Result value :=
  description <- getHistoryDescription updateData currentProject ;;
  Ok (VObj [("type", VStr (getHistoryType updateData));
            ("description", description);
            ("timestamp", now);
            ("userId", js_or (js_or (field updateData "userId") (field updateData "updatedBy"))
                             (VStr "unknown"));
            ("userName", js_or (js_or (field updateData "userName") (field updateData "updatedBy"))
                               (VStr "مستخدم غير معروف"));
            ("changes", getDetailedChanges updateData currentProject)]).

Definition set_if_defined (k : string) (updateData : obj) (acc : obj) : Result obj :=
  if is_undefined (field updateData k) then Ok acc
  else _ <- length_of (field updateData k) ;; Ok (<[k := field updateData k]> acc).

Definition build_operations (updateData : obj) (currentProject : option obj) (now : value)
  : Result UpdateOps :=
  let cleanData := <["updatedAt" := now]> (cleanUpdateData updateData) in
  set1 <- set_if_defined "subgoals" updateData cleanData ;;
  set2 <- set_if_defined "images" updateData set1 ;;
  let set3 := if is_undefined (field updateData "totalCost") then set2
              else <["totalCost" := field updateData "totalCost"]> set2 in
  match currentProject with
  | Some cur =>
      if shouldAddHistory updateData && hasActualChanges updateData cur then
        entry <- historyEntry updateData currentProject now ;;
        Ok (mkOps set3 None (Some (mkPush entry (Some (-20)))))
      else Ok (mkOps set3 None None)
  | None => Ok (mkOps set3 None None)
  end.

(** The [catch] and [finally] blocks (lines 461-475) for an error thrown in the
    [try]: a retry first awaits its timer with the lock still held. *)
Definition on_error (w : World) (t : Task) (retryCount : nat) (e : Error) : World * Task :=
  if is_transient e && (retryCount <? maxRetries)%nat then
    (w, sleep (1000 * (Z.of_nat retryCount + 1)) (goto (Backoff retryCount) t))
  else (release (projectId t) w, goto (Settled (Rejected e)) t).

(** Lines 375-437, up to the await of [findOneAndUpdate]. *)
Definition continue_with (w : World) (t : Task) (retryCount : nat)
  (currentProject : option obj) (now : value) : World * Task :=
  match build_operations (updateData t) currentProject now with
  | Ok ops => (w, goto (AwaitFindOneAndUpdate retryCount ops) t)
  | Throw e => on_error w t retryCount e
  end.

(** Lines 341-373: the call, up to its first await.  The database is
    connected: [getDB()] returns it. *)
Definition enter (w : World) (t : Task) (retryCount : nat) : World * Task :=
  match updateLocks w !! projectId t with
  | Some _ => (w, sleep 100 (goto (Entry retryCount) t))
  | None =>
      let w1 := set_locks (insert (projectId t) true) w in
      if negb (ObjectId_isValid (projectId t)) then
        on_error w1 t retryCount (PlainError "Invalid project ID")
      else
        let now := toISOString (clock w1) in
        if shouldAddHistory (updateData t) then (w1, goto (AwaitFindOne retryCount now) t)
        else continue_with w1 t retryCount None now
  end.

(** [{ ...result, id: result._id.toString(), _id: undefined }] *)
Definition snapshot_of (id : string) (result : obj) : obj :=
  <["id" := VStr id]> (delete "_id" result).

(** One step of a task: from the await it is suspended at to the next one.  At
    [Backoff] the timer has fired: the nested call of line 468 runs up to its
    own first await, and then the [finally] of the failed attempt releases the
    lock. *)
Definition step (w : World) (t : Task) : World * Task :=
  match pc t with
  | Entry retryCount => enter w t retryCount
  | AwaitFindOne retryCount now =>
      match findOne w (projectId t) with
      | (Throw e, w') => on_error w' t retryCount e
      | (Ok currentProject, w') => continue_with w' t retryCount currentProject now
      end
  | AwaitFindOneAndUpdate retryCount ops =>
      match findOneAndUpdate w (FId (projectId t)) ops with
      | (Throw e, w') => on_error w' t retryCount e
      | (Ok None, w') => on_error w' t retryCount (PlainError "Project not found")
      | (Ok (Some result), w') =>
          match log_latest_entry result with
          | Throw e => on_error w' t retryCount e
          | Ok _ => (release (projectId t) w',
                     goto (Settled (Resolved (snapshot_of (projectId t) result))) t)
          end
      end
  | Backoff retryCount =>
      let '(w', t') := enter w t (S retryCount) in
      (release (projectId t) w', t')
  | Settled _ => (w, t)
  end.

(** The call running with nothing else scheduled in between: [n] steps, the
    clock advancing with each. *)
Fixpoint run (n : nat) (w : World) (t : Task) : World * Task :=
  match n with
  | O => (w, t)
  | S n' => let '(w', t') := step w t in run n' (tick w') t'
  end.

Definition outcome (t : Task) : option Outcome :=
  match pc t with
  | Settled o => Some o
  | _ => None
  end.

(** The stored history of a project, as a list. *)
Definition history_of (w : World) (id : string) : list value :=
  match db w !! id with
  | Some doc => match field doc "history" with VArr h => h | _ => [] end
  | None => []
  end.

(** ** server.js: the two handlers *)

Record Response := mkResponse {
  status_code : nat;
  success : bool;
  response_message : string;
  response_error : option Error;
  data : option obj }.

Definition respond_error (code : nat) (msg : string) (e : option Error) : Response :=
  mkResponse code false msg e None.

(** [new ObjectId(s)] throws on a string that is not an ObjectId. *)
Definition BSONError : Error :=
  mkError "BSONError" "input must be a 24 character hex string".

(** [result?.value || result] (line 948: the answer of an older driver is
    wrapped in [value], the one of a newer driver is the document): the
    document, or [null]. *)
Definition unwrap (result : option obj) : option obj := result.

(** *** PUT /api/projects/:id (server.js, lines 882-995) *)




(** *** PUT /api/projects/:id/subgoals/:subgoalId/cost (lines 998-1139) *)

(** [subgoals?.find(sg => sg.id === subgoalId)] *)
Fixpoint find_by_id (subgoalId : string) (l : list value) : Result value :=
  match l with
  | [] => Ok VUndefined
  | sg :: r =>
      id <- prop sg "id" ;;
      if strict_eq id (VStr subgoalId) then Ok sg else find_by_id subgoalId r
  end.

Definition find_subgoal (subgoalId : string) (subgoals : value) : Result value :=
  match subgoals with
  | VUndefined | VNull => Ok VUndefined
  | VArr l => find_by_id subgoalId l
  | _ => Throw (TypeError "find is not a function")
  end.

(** Lines 1026-1057: the first update, built from the sub-goal found.  The
    texts of [description] and of the default [note] are kept as the template
    and its arguments. *)
Definition goal_cost_update (subgoalId : string) (targetSubgoal goalCost note : value)
  (t : nat) : Result (value * UpdateOps) :=
  oldGoalCost <- prop targetSubgoal "goalCost" ;;
  title <- prop targetSubgoal "title" ;;
  let oldCost := num_or (Number oldGoalCost) 0 in
  let newCost := num_or (Number goalCost) 0 in
  let goalTitle := js_or title (VStr "هدف غير محدد") in
  let now := toISOString t in
  let entry := VObj [("id", VStr (pretty t));
                     ("type", VStr "goal_cost_updated");
                     ("description", VObj [("template", VStr "goal_cost"); ("title", goalTitle);
                                           ("from", VNum (Fin oldCost)); ("to", VNum (Fin newCost))]);
                     ("note", js_or note (VObj [("template", VStr "cost_increase");
                                                ("title", goalTitle)]));
                     ("timestamp", now);
                     ("date", now);
                     ("userId", VStr "current-user");
                     ("userName", VStr "المستخدم الحالي");
                     ("oldValue", VNum (Fin oldCost));
                     ("newValue", VNum (Fin newCost))] in
  Ok (goalTitle,
      mkOps {[ "updatedAt" := now ]}
            (Some (subgoalId, [("goalCost", VNum (Fin newCost)); ("updatedAt", now)]))
            (Some (mkPush entry None))).

(** Lines 1071-1072: [(subgoals || []).reduce((sum, goal) => sum +
    (Number(goal.goalCost) || 0), 0)] *)
Fixpoint sum_goal_costs (sum : Z) (l : list value) : Result Z :=
  match l with
  | [] => Ok sum
  | goal :: r =>
      c <- prop goal "goalCost" ;;
      sum_goal_costs (sum + num_or (Number c) 0) r
  end.

Definition totalGoalsCost_of (updatedDoc : obj) : Result Z :=
  match js_or (field updatedDoc "subgoals") (VArr []) with
  | VArr l => sum_goal_costs 0 l
  | _ => Throw (TypeError "reduce is not a function")
  end.

(** Line 1075: [Number(originalCost) || Number(totalCost) || 0] *)
Definition originalCost_of (updatedDoc : obj) : Z :=
  num_or (Number (field updatedDoc "originalCost"))
         (num_or (Number (field updatedDoc "totalCost")) 0).

(** Lines 1079-1103: the second update. *)
Definition aggregate_update (updatedDoc : obj) (goalTitle : value) (totalGoalsCost : Z)
  (t : nat) : UpdateOps :=
  let originalCost := originalCost_of updatedDoc in
  let newTotalCost := originalCost + totalGoalsCost in
  let now := toISOString t in
  let entry := VObj [("id", VStr (pretty (S t)));
                     ("type", VStr "cost_updated");
                     ("description", VObj [("template", VStr "total_cost");
                                           ("total", VNum (Fin newTotalCost));
                                           ("goals", VNum (Fin totalGoalsCost))]);
                     ("note", VObj [("template", VStr "cost_increase"); ("title", goalTitle)]);
                     ("timestamp", now);
                     ("date", now);
                     ("userId", VStr "current-user");
                     ("userName", VStr "المستخدم الحالي");
                     ("oldValue", js_or (field updatedDoc "totalCost") (VNum (Fin originalCost)));
                     ("newValue", VNum (Fin newTotalCost))] in
  mkOps (<["totalGoalsCost" := VNum (Fin totalGoalsCost)]>
        (<["totalCost" := VNum (Fin newTotalCost)]>
        {[ "updatedAt" := now ]}))
        None
        (Some (mkPush entry None)).

Definition cost_response (projectId : string) (finalDoc : obj) (totalGoalsCost : Z)
  (updatedDoc : obj) : Response :=
  mkResponse 200 true "تم تحديث تكلفة الهدف بنجاح" None
    (Some (<["id" := VStr projectId]>
          (<["totalGoalsCost" := VNum (Fin totalGoalsCost)]>
          (<["totalCost" := VNum (Fin (originalCost_of updatedDoc + totalGoalsCost))]>
          (<["subgoals" := js_or (field finalDoc "subgoals") (VArr [])]>
          (<["images" := js_or (field finalDoc "images") (VArr [])]>
          (<["history" := js_or (field finalDoc "history") (VArr [])]> finalDoc))))))).

Definition failed_cost_update (e : Error) : Response :=
  respond_error 500 "Failed to update subgoal cost" (Some e).

(** The handler, with nothing else scheduled in between; the clock advances
    at each await. *)
Definition updateSubgoalCost (w : World) (projectId subgoalId : string) (body : obj)
  : Response * World :=
  if negb (ObjectId_isValid projectId) then (failed_cost_update BSONError, w)
  else
    match findOne w projectId with
    | (Throw e, w1) => (failed_cost_update e, tick w1)
    | (Ok None, w1) => (respond_error 404 "Project not found" None, tick w1)
    | (Ok (Some currentProject), w1) =>
        let w1 := tick w1 in
        match find_subgoal subgoalId (field currentProject "subgoals") with
        | Throw e => (failed_cost_update e, w1)
        | Ok targetSubgoal =>
            if negb (truthy targetSubgoal) then
              (respond_error 404 "Subgoal not found" None, w1)
            else
              match goal_cost_update subgoalId targetSubgoal (field body "goalCost")
                      (field body "note") (clock w1) with
              | Throw e => (failed_cost_update e, w1)
              | Ok (goalTitle, ops1) =>
                  match findOneAndUpdate w1 (FId projectId) ops1 with
                  | (Throw e, w2) => (failed_cost_update e, tick w2)
                  | (Ok result, w2) =>
                      let w2 := tick w2 in
                      match unwrap result with
                      | None => (respond_error 404 "Project or subgoal not found" None, w2)
                      | Some updatedDoc =>
                          match totalGoalsCost_of updatedDoc with
                          | Throw e => (failed_cost_update e, w2)
                          | Ok totalGoalsCost =>
                              match findOneAndUpdate w2 (FId projectId)
                                      (aggregate_update updatedDoc goalTitle totalGoalsCost
                                         (clock w2)) with
                              | (Throw e, w3) => (failed_cost_update e, tick w3)
                              | (Ok finalUpdate, w3) =>
                                  (cost_response projectId
                                     (default updatedDoc (unwrap finalUpdate))
                                     totalGoalsCost updatedDoc,
                                   tick w3)
                              end
                          end
                      end
                  end
              end
        end
    end.

(** ** More of JavaScript *)

(** [`${v}`]: ToString.  The elements of an array are joined by commas,
    [null] and [undefined] printing as nothing. *)
Fixpoint ToString (v : value) : string :=
  match v with
  | VUndefined => "undefined"
  | VNull => "null"
  | VBool b => if b then "true" else "false"
  | VNum (Fin z) => pretty z
  | VNum NaN => "NaN"
  | VStr s => s
  | VArr l =>
      (fix join (l : list value) : string :=
         let item x := match x with VUndefined | VNull => "" | _ => ToString x end in
         match l with
         | [] => ""
         | [x] => item x
         | x :: r => item x +:+ "," +:+ join r
         end) l
  | VObj _ => "[object Object]"
  end.

(** [v > n] for a number [n]: the comparison is false when [v] is not a
    number. *)
Definition js_gt (v : value) (n : Z) : bool :=
  match Number v with
  | Fin z => n <? z
  | NaN => false
  end.

(** [Array.isArray(v)] *)
Definition isArray (v : value) : bool :=
  match v with VArr _ => true | _ => false end.

(** What the driver writes for a JavaScript value: [undefined] is stored as
    [null], also inside arrays and nested documents. *)
Fixpoint bson (v : value) : value :=
  match v with
  | VUndefined => VNull
  | VArr l => VArr (map bson l)
  | VObj fs => VObj (map (fun kv => (kv.1, bson kv.2)) fs)
  | _ => v
  end.

(** ** The document store: the other operations *)

(** [collection.insertOne(doc)]: the driver gives the document the ObjectId
    [insertedId] that it has generated; the store refuses an [_id] that is
    taken. *)
Definition insertOne (w : World) (insertedId : string) (doc : obj) : Result string * World :=
  match round_trip w with
  | (Throw e, w') => (Throw e, w')
  | (Ok _, w') =>
      match db w' !! insertedId with
      | Some _ => (Throw (mkError "MongoServerError" "E11000 duplicate key error"), w')
      | None => (Ok insertedId, set_db (insert insertedId (bson <$> doc)) w')
      end
  end.

(** [collection.deleteOne(filter)], answered with [deletedCount]. *)
Definition deleteOne (w : World) (f : Filter) : Result nat * World :=
  match round_trip w with
  | (Throw e, w') => (Throw e, w')
  | (Ok _, w') =>
      match select f (db w') with
      | None => (Ok 0%nat, w')
      | Some (id, _) => (Ok 1%nat, set_db (base.delete id) w')
      end
  end.

(** [collection.findOne(filter)] *)
Definition findOneBy (w : World) (f : Filter) : Result (option (string * obj)) * World :=
  match round_trip w with
  | (Throw e, w') => (Throw e, w')
  | (Ok _, w') => (Ok (select f (db w')), w')
  end.

(** The condition [{ id: imageId }] on an element of an array: the element is
    a document whose [id] is the string, or an array that holds the string. *)
Definition has_id (imageId : string) (img : value) : bool :=
  match img with
  | VObj fs =>
      match assoc "id" fs with
      | VArr ids => existsb (fun id => strict_eq id (VStr imageId)) ids
      | id => strict_eq id (VStr imageId)
      end
  | _ => false
  end.

(** [$pull: { images: { id: imageId } }]: every element of the array that
    meets the condition is removed; an absent field stays absent. *)
Definition pull_images (imageId : string) (doc : obj) : Result obj :=
  match field doc "images" with
  | VUndefined => Ok doc
  | VArr l =>
      Ok (<["images" := VArr (filter (fun img => has_id imageId img = false) l)]> doc)
  | _ => Throw (mkError "MongoServerError" "Cannot apply $pull to a non-array value")
  end.

(** [collection.updateOne({ _id: new ObjectId(id) }, { $pull: { images: { id:
    imageId } }, $set: { updatedAt: now } })], answered with [matchedCount]. *)
Definition pullImage (w : World) (id imageId : string) (now : value) : Result nat * World :=
  match round_trip w with
  | (Throw e, w') => (Throw e, w')
  | (Ok _, w') =>
      match db w' !! id with
      | None => (Ok 0%nat, w')
      | Some doc =>
          match pull_images imageId doc with
          | Throw e => (Throw e, w')
          | Ok doc' => (Ok 1%nat, set_db (insert id (<["updatedAt" := now]> doc')) w')
          end
      end
  end.

(** ** Cloudinary (config/cloudinary.js) *)

(** The image service is known by its answers: [answer n] is what the [n]-th
    request sent to it is answered with, a result or an error.  [requests]
    logs the public ids of the [destroy] requests sent so far. *)
Record Cloudinary := mkCloudinary {
  answer : nat -> Result value;
  requests : list value }.

(** [cloudinary.uploader.destroy(publicId)] *)
Definition destroy (c : Cloudinary) (publicId : value) : Result value * Cloudinary :=
  (answer c (length (requests c)), mkCloudinary (answer c) (requests c ++ [publicId])).

(** [deleteImage] (lines 166-179 of api/health.js, the part that is
    config/cloudinary.js). *)
Definition deleteImage (c : Cloudinary) (publicId : value) : Result value * Cloudinary :=
  match destroy c publicId with
  | (Throw error, c') => (Throw error, c')
  | (Ok result, c') =>
      (r <- prop result "result" ;;
       if negb (strict_eq r (VStr "ok"))
       then Throw (PlainError ("Failed to delete image: " +:+ ToString r))
       else Ok result,
       c')
  end.

(** ** ImageService (ImageService.js, lines 7-271) *)

Module ImageService.

(** Lines 85-97: whatever is thrown inside the [try], the [catch] throws
    [Failed to delete image]. *)
Definition delete (c : Cloudinary) (publicId : value) : Result bool * Cloudinary :=
  if negb (truthy publicId) then (Throw (PlainError "Failed to delete image"), c)
  else
    match deleteImage c publicId with
    | (Ok _, c') => (Ok true, c')
    | (Throw _, c') => (Throw (PlainError "Failed to delete image"), c')
    end.

(** [{ successful, failed, total }] *)
Record Tally := mkTally { successful : Z; failed : Z; total : Z }.

(** Line 104-109: the calls of [delete] are started one after the other, in
    the order of the array, each settling as [true] or, through its [catch],
    as [false]. *)
Fixpoint delete_each (c : Cloudinary) (publicIds : list value) : list bool * Cloudinary :=
  match publicIds with
  | [] => ([], c)
  | publicId :: rest =>
      let '(r, c1) := delete c publicId in
      let '(rs, c2) := delete_each c1 rest in
      (match r with Ok b => b | Throw _ => false end :: rs, c2)
  end.

(** Lines 102-126, for an array of public ids. *)
Definition deleteMultiple (c : Cloudinary) (publicIds : list value) : Result Tally * Cloudinary :=
  let '(results, c') := delete_each c publicIds in
  let successful := Z.of_nat (length (filter (fun r => r = true) results)) in
  (Ok (mkTally successful (Z.of_nat (length publicIds) - successful)
         (Z.of_nat (length publicIds))),
   c').

Definition allowedTypes : list value :=
  [VStr "image/jpeg"; VStr "image/png"; VStr "image/webp"; VStr "image/gif"].

(** [50 * 1024 * 1024] *)
Definition maxSize : Z := 52428800.

(** Lines 223-236.  [includes] compares as [===] does, but for NaN, which is
    not among the allowed types. *)
Definition validateImageFile (file : value) : Result bool :=
  mimetype <- prop file "mimetype" ;;
  if negb (existsb (strict_eq mimetype) allowedTypes) then
    Throw (PlainError "Invalid file type. Only JPEG, PNG, WebP, and GIF are allowed.")
  else
    size <- prop file "size" ;;
    if js_gt size maxSize then Throw (PlainError "File too large. Maximum size is 50MB.")
    else Ok true.

Definition maxFiles : Z := 20.

(** Lines 248-254: [forEach] stops at the first file that is refused. *)
Fixpoint validate_each (index : Z) (files : list value) : Result unit :=
  match files with
  | [] => Ok tt
  | file :: rest =>
      match validateImageFile file with
      | Throw error =>
          Throw (PlainError ("File " +:+ pretty (index + 1) +:+ ": " +:+ message error))
      | Ok _ => validate_each (index + 1) rest
      end
  end.

(** Lines 241-257, for an array of files. *)
Definition validateImageFiles (files : list value) : Result bool :=
  if maxFiles <? Z.of_nat (length files) then
    Throw (PlainError ("Too many files. Maximum " +:+ pretty maxFiles +:+ " files allowed."))
  else
    _ <- validate_each 0 files ;; Ok true.

End ImageService.

(** ** ProjectService: the other operations (ImageService.js, lines 288-335
    and 481-788) *)

Module ProjectService.

(** Lines 481-505. *)
Definition getById (w : World) (projectId : string) : Result (option obj) * World :=
  if negb (ObjectId_isValid projectId) then (Throw (PlainError "Invalid project ID"), w)
  else
    match findOne w projectId with
    | (Throw error, w') => (Throw error, tick w')
    | (Ok None, w') => (Ok None, tick w')
    | (Ok (Some project), w') => (Ok (Some (snapshot_of projectId project)), tick w')
    end.

(** Lines 294-322: the document of a new project. *)
Definition new_project (projectData : obj) (now : value) : obj :=
  let f := field projectData in
  list_to_map
    [("title", f "title");
     ("customer", f "customer");
     ("startDate", f "startDate");
     ("endDate", f "endDate");
     ("status", js_or (f "status") (VStr "waiting"));
     ("totalCost", js_or (f "totalCost") (VNum (Fin 0)));
     ("originalCost", js_or (js_or (f "originalCost") (f "totalCost")) (VNum (Fin 0)));
     ("familyId", js_or (f "familyId") VNull);
     ("subgoals", js_or (f "subgoals") (VArr []));
     ("images", js_or (f "images") (VArr []));
     ("createdAt", now);
     ("updatedAt", now);
     ("createdBy", f "createdBy");
     ("updatedBy", f "updatedBy");
     ("history",
      VArr [VObj [("type", VStr "created");
                  ("description", VStr "تم إنشاء المشروع");
                  ("timestamp", now);
                  ("userId", js_or (js_or (f "userId") (f "createdBy")) (VStr "unknown"));
                  ("userName", js_or (js_or (f "userName") (f "createdBy"))
                                     (VStr "مستخدم غير معروف"))]])].

(** Lines 288-335.  [insertedId] is the ObjectId that the driver generates
    for the document. *)
Definition create (w : World) (insertedId : string) (projectData : obj)
  : Result obj * World :=
  let project := new_project projectData (toISOString (clock w)) in
  match insertOne w insertedId project with
  | (Throw _, w') => (Throw (PlainError "Failed to create project"), tick w')
  | (Ok id, w') => (Ok (snapshot_of id project), tick w')
  end.

(** Lines 780-788: [filter] reads [publicId] of every image before the first
    request is sent; a request that fails is logged and forgotten. *)
Fixpoint with_publicId (images : list value) : Result (list value) :=
  match images with
  | [] => Ok []
  | img :: rest =>
      publicId <- prop img "publicId" ;;
      kept <- with_publicId rest ;;
      Ok (if truthy publicId then publicId :: kept else kept)
  end.

Definition cleanupImages (c : Cloudinary) (images : value) : Result unit * Cloudinary :=
  match images with
  | VArr l =>
      match with_publicId l with
      | Throw e => (Throw e, c)
      | Ok publicIds => (Ok tt, fold_left (fun c publicId => (deleteImage c publicId).2) publicIds c)
      end
  | _ => (Throw (TypeError "images.filter is not a function"), c)
  end.

(** [project.images.find(img => img.id === imageId)] *)
Definition find_image (imageId : string) (images : value) : Result value :=
  match images with
  | VArr l => find_by_id imageId l
  | VUndefined | VNull => Throw (TypeError "Cannot read properties of null")
  | _ => Throw (TypeError "project.images.find is not a function")
  end.

(** Lines 634-666. *)
Definition removeImage (w : World) (c : Cloudinary) (projectId imageId : string)
  : Result bool * World * Cloudinary :=
  match getById w projectId with
  | (Throw error, w1) => (Throw error, w1, c)
  | (Ok None, w1) => (Throw (PlainError "Project not found"), w1, c)
  | (Ok (Some project), w1) =>
      match (image <- find_image imageId (field project "images") ;;
             if negb (truthy image) then Throw (PlainError "Image not found")
             else prop image "publicId") with
      | Throw error => (Throw error, w1, c)
      | Ok publicId =>
          let '(deleted, w2, c2) :=
            if truthy publicId
            then let '(r, c') := deleteImage c publicId in (r, tick w1, c')
            else (Ok VUndefined, w1, c) in
          match deleted with
          | Throw error => (Throw error, w2, c2)
          | Ok _ =>
              match pullImage w2 projectId imageId (toISOString (clock w2)) with
              | (Throw error, w3) => (Throw error, tick w3, c2)
              | (Ok _, w3) => (Ok true, tick w3, c2)
              end
          end
      end
  end.

(** Lines 555-584. *)
Definition delete (w : World) (c : Cloudinary) (projectId : string)
  : Result bool * World * Cloudinary :=
  if negb (ObjectId_isValid projectId) then (Throw (PlainError "Invalid project ID"), w, c)
  else
    match getById w projectId with
    | (Throw error, w1) => (Throw error, w1, c)
    | (Ok None, w1) => (Throw (PlainError "Project not found"), w1, c)
    | (Ok (Some project), w1) =>
        let images := field project "images" in
        let '(cleaned, w2, c2) :=
          if truthy images && js_gt (opt_length images) 0
          then let '(r, c') := cleanupImages c images in (r, tick w1, c')
          else (Ok tt, w1, c) in
        match cleaned with
        | Throw error => (Throw error, w2, c2)
        | Ok _ =>
            match deleteOne w2 (FId projectId) with
            | (Throw error, w3) => (Throw error, tick w3, c2)
            | (Ok _, w3) => (Ok true, tick w3, c2)
            end
        end
    end.

End ProjectService.

(** ** routes/projects.js: the handlers of one project *)

(** [error.message || fallback], and [error.message] as [error] only in
    development. *)
Definition server_error (development : bool) (fallback : string) (error : Error) : Response :=
  respond_error 500 (if String.eqb (message error) "" then fallback else message error)
    (if development then Some error else None).

(** GET /:id (lines 59-84) *)
Definition router_get (development : bool) (w : World) (id : string) : Response * World :=
  match ProjectService.getById w id with
  | (Throw error, w') => (server_error development "Failed to fetch project" error, w')
  | (Ok None, w') => (respond_error 404 "Project not found" None, w')
  | (Ok (Some project), w') => (mkResponse 200 true "" None (Some project), w')
  end.

(** PUT /:id (lines 107-150): the answer to a call of [update] that has
    settled. *)
Definition router_put_response (development : bool) (o : Outcome) : Response :=
  match o with
  | Resolved project => mkResponse 200 true "Project updated successfully" None (Some project)
  | Rejected error =>
      if String.eqb (message error) "Invalid project ID" then
        respond_error 400 (message error) None
      else if String.eqb (message error) "Project not found" then
        respond_error 404 (message error) None
      else server_error development "Failed to update project" error
  end.

(** The handler with nothing else scheduled in between, [n] steps on: it has
    answered once the call has settled. *)
Definition router_put (development : bool) (n : nat) (w : World) (id : string) (body : obj)
  : option Response * World :=
  let r := run n w (update id body) in
  (router_put_response development <$> outcome r.2, r.1).

(** DELETE /:id (lines 153-179) *)
Definition router_delete (development : bool) (w : World) (c : Cloudinary) (id : string)
  : Response * World * Cloudinary :=
  match ProjectService.delete w c id with
  | (Ok _, w', c') => (mkResponse 200 true "Project deleted successfully" None None, w', c')
  | (Throw error, w', c') =>
      (if String.eqb (message error) "Invalid project ID"
          || String.eqb (message error) "Project not found"
       then respond_error 404 (message error) None
       else server_error development "Failed to delete project" error,
       w', c')
  end.

(** ** server.js: the other handlers of one project *)

(** [v?.k] on a value that is not [null]: a property of a primitive other
    than [length] is [undefined]. *)
Definition opt_prop (v : value) (k : string) : value :=
  match prop v k with
  | Ok x => x
  | Throw _ => VUndefined
  end.

(** [{ ...project, id: project._id.toString(), subgoals: project.subgoals ||
    [], images: project.images || [], history: project.history || [] }] *)
Definition formatted (_id : string) (project : obj) : obj :=
  <["id" := VStr _id]>
    (<["subgoals" := js_or (field project "subgoals") (VArr [])]>
    (<["images" := js_or (field project "images") (VArr [])]>
    (<["history" := js_or (field project "history") (VArr [])]> project))).

(** Lines 731-738 and 1155-1161: by ObjectId and, when that throws, by the
    field [id]. *)
Definition by_either_id {A} (request : World -> Filter -> Result A * World)
  (w : World) (projectId : string) : Result A * World :=
  let first :=
    if ObjectId_isValid projectId
    then let '(r, w1) := request w (FId projectId) in (r, tick w1)
    else (Throw BSONError, w) in
  match first with
  | (Ok r, w1) => (Ok r, w1)
  | (Throw _, w1) =>
      let '(r, w2) := request w1 (FField "id" (VStr projectId)) in (r, tick w2)
  end.

(** GET /api/projects/:id (lines 719-771) *)
Definition get_project (w : World) (projectId : string) : Response * World :=
  match by_either_id findOneBy w projectId with
  | (Throw e, w') => (respond_error 500 "Failed to fetch project" (Some e), w')
  | (Ok None, w') => (respond_error 404 "Project not found" None, w')
  | (Ok (Some (_id, project)), w') =>
      (mkResponse 200 true "Project retrieved successfully" None (Some (formatted _id project)),
       w')
  end.

(** DELETE /api/projects/:id (lines 1142-1185) *)
Definition delete_project (w : World) (projectId : string) : Response * World :=
  match by_either_id deleteOne w projectId with
  | (Throw e, w') => (respond_error 500 "Failed to delete project" (Some e), w')
  | (Ok deletedCount, w') =>
      if Nat.eqb deletedCount 0 then (respond_error 404 "Project not found" None, w')
      else (mkResponse 200 true "Project deleted successfully from database" None None, w')
  end.

(** [new Date(Date.now() + ms).toISOString()]: the reading of the clock [ms]
    milliseconds on, printed as [toISOString] prints the clock. *)
Definition later (t : nat) (ms : N) : value := VStr (pretty (N.of_nat t + ms)%N).

(** Lines 801-815: the images of the request, each with its defaults. *)
Fixpoint processedImages (t : nat) (index : Z) (images : list value) : Result (list value) :=
  match images with
  | [] => Ok []
  | img :: rest =>
      id <- prop img "id" ;;
      let url := opt_prop img "url" in
      let image :=
        VObj [("id", js_or id (VStr ("img_" +:+ pretty t +:+ "_" +:+ pretty index)));
              ("url", js_or url (VStr ""));
              ("thumbnail", js_or (js_or (opt_prop img "thumbnail") url) (VStr ""));
              ("filename", js_or (opt_prop img "filename")
                                 (VStr ("image_" +:+ pretty (index + 1))));
              ("size", js_or (opt_prop img "size") (VNum (Fin 0)));
              ("uploadedAt", js_or (opt_prop img "uploadedAt") (toISOString t));
              ("uploadedBy", js_or (opt_prop img "uploadedBy") (VStr "current-user"))] in
      others <- processedImages t (index + 1) rest ;;
      Ok (image :: others)
  end.

(** Lines 820-843: the document of the new project. *)
Definition newProject (projectData : obj) (images : list value) (t : nat) : obj :=
  let f := field projectData in
  let now := toISOString t in
  list_to_map
    [("id", VStr (pretty t));
     ("title", js_or (f "title") (VStr "مشروع جديد"));
     ("description", js_or (f "description") (VStr ""));
     ("status", js_or (f "status") (VStr "waiting"));
     ("totalCost", VNum (Fin (num_or (Number (f "totalCost")) 0)));
     ("originalCost",
      VNum (Fin (num_or (Number (f "originalCost")) (num_or (Number (f "totalCost")) 0))));
     ("totalGoalsCost", VNum (Fin 0));
     ("familyId", js_or (f "familyId") VNull);
     ("startDate", js_or (f "startDate") now);
     ("endDate", js_or (f "endDate") (later t (30 * 24 * 60 * 60 * 1000)));
     ("customer",
      VObj [("name", js_or (opt_prop (f "customer") "name") (VStr "عميل جديد"));
            ("phone", js_or (opt_prop (f "customer") "phone") (VStr ""));
            ("address", js_or (opt_prop (f "customer") "address") (VStr ""))]);
     ("subgoals", if isArray (f "subgoals") then f "subgoals" else VArr []);
     ("images", VArr images);
     ("history", VArr []);
     ("createdAt", now);
     ("updatedAt", now);
     ("createdBy", js_or (f "createdBy") (VStr "مستخدم النظام"));
     ("updatedBy", js_or (f "updatedBy") (VStr "مستخدم النظام"))].

(** POST /api/projects (lines 774-879).  [insertedId] is the ObjectId that
    the driver generates for the document. *)
Definition post_project (w : World) (insertedId : string) (projectData : obj)
  : Response * World :=
  if negb (truthy (field projectData "title")) || negb (truthy (field projectData "customer"))
  then (respond_error 400 "Missing required fields: title and customer are required" None, w)
  else
    let created :=
      images <- (match field projectData "images" with
                 | VArr l => processedImages (clock w) 0 l
                 | _ => Ok []
                 end) ;;
      Ok (newProject projectData images (clock w)) in
    match created with
    | Throw e => (respond_error 500 "Failed to create project" (Some e), w)
    | Ok project =>
        match insertOne w insertedId project with
        | (Throw e, w') => (respond_error 500 "Failed to create project" (Some e), tick w')
        | (Ok _id, w') =>
            (mkResponse 200 true "Project created and saved to database successfully" None
               (Some (<["id" := VStr _id]> project)),
             tick w')
        end
    end.

(** * Vocabulary of the properties *)

(** ** What one call writes *)

(** The snapshot that an attempt of [update] has read when it builds its
    update document: [findOne] is awaited only if [shouldAddHistory]. *)
Definition snapshot_read (updateData : obj) (stored : option obj) : option obj :=
  if shouldAddHistory updateData then stored else None.

(** The write of a call, seen from outside: the stored document [doc] was
    replaced by [doc'], the result of the update document built against
    [doc]. *)
Definition wrote (id : string) (updateData : obj) (docs docs' : gmap string obj)
  (doc doc' : obj) (ops : UpdateOps) : Prop :=
  docs !! id = Some doc
  /\ (exists now, build_operations updateData (snapshot_read updateData (Some doc)) now = Ok ops)
  /\ apply_update ops doc = Ok (Some doc')
  /\ docs' = <[id := doc']> docs.

(** Invariant of a call that runs with nothing else scheduled in between. *)
Definition effect_inv (w0 : World) (id : string) (updateData0 : obj) (w : World) (t : Task)
  : Prop :=
  projectId t = id /\ updateData t = updateData0 /\
  match pc t with
  | AwaitFindOneAndUpdate _ ops =>
      db w = db w0
      /\ exists now, build_operations updateData0 (snapshot_read updateData0 (db w0 !! id)) now = Ok ops
  | Settled o =>
      (db w = db w0 /\ forall snap, o <> Resolved snap)
      \/ (exists doc doc' ops,
            wrote id updateData0 (db w0) (db w) doc doc' ops
            /\ (o = Resolved (snapshot_of id doc')
                \/ exists e, o = Rejected e /\ log_latest_entry doc' = Throw e))
  | AwaitFindOne _ _ => db w = db w0 /\ shouldAddHistory updateData0 = true
  | _ => db w = db w0
  end.

(** ** The update document of [update] *)

(** The four fields that [cleanUpdateData] strips. *)
Definition protected (k : string) : Prop :=
  k = "id" \/ k = "_id" \/ k = "createdAt" \/ k = "history".

(** The stored history as a list: an absent field is the empty history. *)
Definition stored_history (doc : obj) : list value :=
  match field doc "history" with VArr h => h | _ => [] end.

(** [w.db[id].k], when both exist. *)
Definition stored_field (w : World) (id k : string) : option value :=
  db w !! id ≫= (fun doc => doc !! k).

(** ** The bounded ledger *)

(** [$push] with [$each: [entry], $slice: -20], on the history as a list. *)
Definition ledger_append (h : list value) (entry : value) : list value :=
  lastn 20 (h ++ [entry]).

(** ** Example data *)

(** One of the ids of test-objectid.js. *)
Definition pid : string := "688e040f148561ceaaf4741d".

Definition created_entry : value :=
  VObj [("type", VStr "created"); ("timestamp", VStr "0"); ("userId", VStr "unknown")].

Definition subgoal (id : string) (goalCost : value) : value :=
  VObj [("id", VStr id); ("title", VStr id); ("goalCost", goalCost)].

Definition project (status : string) (costs : obj) (subgoals history : list value) : obj :=
  <["status" := VStr status]>
    (<["subgoals" := VArr subgoals]> (<["history" := VArr history]> costs)).

Definition costs (originalCost totalCost : Z) : obj :=
  <["originalCost" := VNum (Fin originalCost)]> {[ "totalCost" := VNum (Fin totalCost) ]}.

(** A process that holds the one project, with no update in flight and a
    healthy store. *)
Definition world_of (doc : obj) : World := mkWorld {[ pid := doc ]} ∅ [] 0.

Definition transient_error : Error := mkError "MongoNetworkTimeoutError" "connection timed out".

(** ** No-op suppression *)

(** The patch repeats the audited fields of the snapshot. *)
Definition same_status (patch doc : obj) : Prop :=
  field patch "status" = VUndefined
  \/ exists s, field patch "status" = VStr s /\ field doc "status" = VStr s.

Definition same_subgoal_count (patch doc : obj) : Prop :=
  (exists l l', field patch "subgoals" = VArr l /\ field doc "subgoals" = VArr l'
                /\ length l = length l')
  \/ (field patch "subgoals" = VUndefined
      /\ (field doc "subgoals" = VUndefined \/ field doc "subgoals" = VArr [])).

Definition same_total_cost (patch doc : obj) : Prop :=
  field patch "totalCost" = VUndefined
  \/ exists c, field patch "totalCost" = VNum (Fin c) /\ field doc "totalCost" = VNum (Fin c).

(** ** Aggregates after a sub-goal cost update *)



(** ** Attempts, one by one *)




Definition advance (n : nat) (w : World) : World :=
  mkWorld (db w) (updateLocks w) (outage w) (n + clock w).

(** ** Release of the lock *)

(** Steps that a call can still take before it settles, when it is not kept
    waiting for the lock. *)
Definition remaining (p : Pc) : nat :=
  match p with
  | Entry rc => 3 + 4 * (maxRetries - rc)
  | AwaitFindOne rc _ => 2 + 4 * (maxRetries - rc)
  | AwaitFindOneAndUpdate rc _ => 1 + 4 * (maxRetries - rc)
  | Backoff rc => 4 + 4 * (maxRetries - S rc)
  | Settled _ => 0
  end.

(** A call that is at its entry or settled does not hold the lock. *)
Definition unlocked_at_rest (w : World) (t : Task) : Prop :=
  match pc t with
  | Entry _ | Settled _ => updateLocks w !! projectId t = None
  | _ => True
  end.

(** ** Two calls in one process *)







(** The process, the first call and the second call. *)
Definition State : Type := World * Task * Task.

(** The event loop resumes one of the two calls. *)
Definition sched_step (second : bool) (s : State) : State :=
  let '(w, a, b) := s in
  if second then (tick (step w b).1, a, (step w b).2)
  else (tick (step w a).1, (step w a).2, b).

Definition interleave (schedule : list bool) (s : State) : State :=
  fold_left (fun s second => sched_step second s) schedule s.




(** ** What a call of [update] stores *)

(** The [$set] document of an update call with patch [d] built at [now]. *)
Definition set_document (d : obj) (now : value) : obj :=
  <["updatedAt" := now]> (cleanUpdateData d).

(** The audited fields of the patch are plain: a status string, a number as
    totalCost (each may be left out), and the list of sub-goals. *)
Definition plain_patch (p : obj) : Prop :=
  (field p "status" = VUndefined \/ exists s, p !! "status" = Some (VStr s))
  /\ (field p "totalCost" = VUndefined \/ exists c, p !! "totalCost" = Some (VNum (Fin c)))
  /\ exists l, p !! "subgoals" = Some (VArr l).


(** ** Cloudinary *)

(** The service has destroyed the asset: it answered [{ result: 'ok' }]. *)
Definition destroyed (a : Result value) : bool :=
  match a with
  | Ok result =>
      match prop result "result" with
      | Ok r => strict_eq r (VStr "ok")
      | Throw _ => false
      end
  | Throw _ => false
  end.

(** The answers to the [k] requests that follow those sent so far. *)
Definition next_answers (c : Cloudinary) (k : nat) : list (Result value) :=
  answer c <$> seq (length (requests c)) k.

(** ** Stored projects *)

(** The fields that [create] stores. *)
Definition project_fields : list string :=
  ["title"; "customer"; "startDate"; "endDate"; "status"; "totalCost"; "originalCost";
   "familyId"; "subgoals"; "images"; "createdAt"; "updatedAt"; "createdBy"; "updatedBy";
   "history"].

(** The value holds no [undefined]. *)
Definition defined (v : value) : Prop := bson v = v.

(** The public ids that [delete] asks Cloudinary to destroy for a stored
    project, when its [images] can be cleaned up: the field is an array whose
    elements are not [null], or has nothing to clean up. *)
Definition image_publicIds (project : obj) : option (list value) :=
  match field project "images" with
  | VArr l =>
      match ProjectService.with_publicId l with
      | Ok publicIds => Some publicIds
      | Throw _ => None
      end
  | images => if truthy images && js_gt (opt_length images) 0 then None else Some []
  end.

(** ** Rejections and retries *)


(** The timers of a call that are backoff delays, and the delays of the
    first [k] retries: 1 s, 2 s, ... *)
Definition backoffs (t : Task) : list Z := filter (fun ms => 1000 <= ms) (timers t).

Definition delays (k : nat) : list Z := (fun i => 1000 * (Z.of_nat i + 1)) <$> seq 0 k.

(** Invariant of a call, whatever the store answers and whatever else is
    scheduled: the retries made so far. *)
Definition retried (t : Task) : Prop :=
  Forall (fun ms => ms = 100 \/ 1000 <= ms) (timers t)
  /\ match pc t with
     | Entry rc | AwaitFindOne rc _ | AwaitFindOneAndUpdate rc _ =>
         (rc <= maxRetries)%nat /\ backoffs t = delays rc
     | Backoff rc => (rc < maxRetries)%nat /\ backoffs t = delays (S rc)
     | Settled _ => exists k, (k <= maxRetries)%nat /\ backoffs t = delays k
     end.

(** * Properties *)

(** ** What one call writes *)

Lemma on_error_cases w t rc e :
  on_error w t rc e = (w, sleep (1000 * (Z.of_nat rc + 1)) (goto (Backoff rc) t))
  \/ on_error w t rc e = (release (projectId t) w, goto (Settled (Rejected e)) t).
Proof. unfold on_error. destruct (_ && _); auto. Qed.

Lemma on_error_effect_inv w0 w t rc e :
  db w = db w0 ->
  effect_inv w0 (projectId t) (updateData t) (on_error w t rc e).1 (on_error w t rc e).2.
Proof.
  intros Hdb. destruct (on_error_cases w t rc e) as [-> | ->]; cbn.
  - repeat split; done.
  - repeat split; try done. left. split; [done | congruence].
Qed.

Lemma continue_with_effect_inv w0 w t rc now :
  db w = db w0 ->
  effect_inv w0 (projectId t) (updateData t)
    (continue_with w t rc (snapshot_read (updateData t) (db w0 !! projectId t)) now).1
    (continue_with w t rc (snapshot_read (updateData t) (db w0 !! projectId t)) now).2.
Proof.
  intros Hdb. unfold continue_with.
  destruct (build_operations _ _ _) as [ops | e] eqn:Hb.
  - cbn. repeat split; try done. by exists now.
  - by apply on_error_effect_inv.
Qed.

Lemma enter_effect_inv w0 w t rc :
  db w = db w0 ->
  effect_inv w0 (projectId t) (updateData t) (enter w t rc).1 (enter w t rc).2.
Proof.
  intros Hdb. unfold enter.
  destruct (updateLocks w !! projectId t); [by repeat split |].
  destruct (negb _); [by apply on_error_effect_inv |].
  destruct (shouldAddHistory (updateData t)) eqn:Hs; [by repeat split |].
  pose proof (continue_with_effect_inv w0
                (set_locks (insert (projectId t) true) w) t rc
                (toISOString (clock (set_locks (insert (projectId t) true) w)))) as H.
  unfold snapshot_read in H. rewrite Hs in H. by apply H.
Qed.

Lemma effect_inv_db w0 id d w w' t :
  db w' = db w -> effect_inv w0 id d w t -> effect_inv w0 id d w' t.
Proof. unfold effect_inv. intros ->. done. Qed.

Lemma round_trip_frame w :
  db (round_trip w).2 = db w
  /\ updateLocks (round_trip w).2 = updateLocks w
  /\ clock (round_trip w).2 = clock w.
Proof. unfold round_trip. by destruct (outage w). Qed.

Lemma prop_throw v k e : prop v k = Throw e -> is_transient e = false.
Proof. destruct v; cbn; intros H; simplify_eq; done. Qed.

Lemma log_latest_entry_throw r e : log_latest_entry r = Throw e -> is_transient e = false.
Proof.
  unfold log_latest_entry. destruct (truthy _); [| done].
  destruct (Number _) as [len |]; [| done].
  destruct (0 <? len); [| done].
  destruct (prop _ _) eqn:Hp; cbn; [done |].
  intros [= <-]. by eapply prop_throw.
Qed.

Lemma on_error_permanent w t rc e :
  is_transient e = false ->
  on_error w t rc e = (release (projectId t) w, goto (Settled (Rejected e)) t).
Proof. unfold on_error. by intros ->. Qed.

Lemma step_effect_inv w0 id d w t :
  effect_inv w0 id d w t -> effect_inv w0 id d (step w t).1 (step w t).2.
Proof.
  intros (Hid & Hd & Hpc). subst id d. unfold step.
  destruct (pc t) as [rc | rc now | rc ops | rc | o] eqn:Ht.
  - by apply enter_effect_inv.
  - destruct Hpc as [Hdb Hs]. unfold findOne.
    pose proof (round_trip_frame w) as (Hr & _ & _).
    destruct (round_trip w) as [[[] | e] w']; cbn in Hr.
    + rewrite Hr, Hdb.
      pose proof (continue_with_effect_inv w0 w' t rc now) as H.
      unfold snapshot_read in H. rewrite Hs in H. apply H. congruence.
    + apply on_error_effect_inv. congruence.
  - destruct Hpc as [Hdb (now & Hb)]. unfold findOneAndUpdate.
    pose proof (round_trip_frame w) as (Hr & _ & _).
    destruct (round_trip w) as [[[] | e] w']; cbn in Hr;
      [| apply on_error_effect_inv; congruence].
    cbn [select]. rewrite Hr, Hdb.
    destruct (db w0 !! projectId t) as [doc |] eqn:Hdoc; cbn -[on_error];
      [| apply on_error_effect_inv; congruence].
    destruct (apply_update ops doc) as [[doc' |] | e] eqn:Ha;
      try (apply on_error_effect_inv; congruence).
    assert (wrote (projectId t) (updateData t) (db w0)
              (db (set_db (insert (projectId t) doc') w')) doc doc' ops) as Hw.
    { repeat split; try done; [by exists now | cbn; congruence]. }
    destruct (log_latest_entry doc') as [[] | e] eqn:Hl.
    + cbn. repeat split; try done. right. exists doc, doc', ops. split; [done | by left].
    + rewrite on_error_permanent by (by eapply log_latest_entry_throw). cbn.
      repeat split; try done. right. exists doc, doc', ops. split; [done |].
      right. by exists e.
  - pose proof (enter_effect_inv w0 w t (S rc) Hpc) as H.
    destruct (enter w t (S rc)) as [w' t'] eqn:He. cbn in *.
    assert (projectId t' = projectId t) as Hid by apply H.
    eapply effect_inv_db; [| exact H]. done.
  - cbn. unfold effect_inv. rewrite Ht. repeat split; done.
Qed.

Lemma run_effect_inv n w0 id d w t :
  effect_inv w0 id d w t -> effect_inv w0 id d (run n w t).1 (run n w t).2.
Proof.
  revert w t. induction n as [| n IH]; intros w t H; [done |].
  cbn. pose proof (step_effect_inv _ _ _ _ _ H) as Hs.
  destruct (step w t) as [w' t']. apply IH. eapply effect_inv_db; [| exact Hs]. done.
Qed.

(** A call, run for any number of steps, has either left the collection as it
    was or has replaced the one document by the result of its update
    document. *)
Lemma run_update_effect n w id d :
  effect_inv w id d (run n w (update id d)).1 (run n w (update id d)).2.
Proof. apply run_effect_inv. by repeat split. Qed.

(** ** The update document of [update] *)

Lemma cleanUpdateData_protected data k :
  protected k -> cleanUpdateData data !! k = None.
Proof.
  unfold cleanUpdateData.
  intros [-> | [-> | [-> | ->]]];
    repeat (first [apply lookup_delete_eq | rewrite lookup_delete_ne by done]).
Qed.

Lemma set_if_defined_protected k d acc acc' k' :
  protected k' -> k <> k' ->
  set_if_defined k d acc = Ok acc' -> acc' !! k' = acc !! k'.
Proof.
  intros _ Hne. unfold set_if_defined.
  destruct (is_undefined _); [by intros [= <-] |].
  destruct (length_of _); cbn; [| done].
  intros [= <-]. by apply lookup_insert_ne.
Qed.

(** What [build_operations] can produce: a [$set] that leaves the protected
    fields alone, no positional part, and a [$push] of one entry with
    [$slice: -20] exactly when a snapshot was read and the change detection
    fired. *)
Lemma build_operations_shape d cur now ops :
  build_operations d cur now = Ok ops ->
  op_positional ops = None
  /\ (forall k, protected k -> op_set ops !! k = None)
  /\ ((op_push ops = None
       /\ (forall c, cur = Some c -> shouldAddHistory d && hasActualChanges d c = false))
      \/ (exists c entry,
            cur = Some c /\ shouldAddHistory d = true /\ hasActualChanges d c = true
            /\ historyEntry d cur now = Ok entry
            /\ op_push ops = Some (mkPush entry (Some (-20))))).
Proof.
  unfold build_operations.
  destruct (set_if_defined "subgoals" _ _) as [set1 |] eqn:H1; cbn; [| done].
  destruct (set_if_defined "images" _ set1) as [set2 |] eqn:H2; cbn; [| done].
  set (set3 := if is_undefined _ then _ else _).
  assert (forall k, protected k -> set3 !! k = None) as Hset.
  { intros k Hk.
    assert ("subgoals" <> k /\ "images" <> k /\ "updatedAt" <> k /\ "totalCost" <> k)
      as (N1 & N2 & N3 & N4)
      by (destruct Hk as [-> | [-> | [-> | ->]]]; done).
    assert (set2 !! k = None) as Hk2.
    { rewrite (set_if_defined_protected _ _ _ _ k Hk N2 H2).
      rewrite (set_if_defined_protected _ _ _ _ k Hk N1 H1).
      rewrite lookup_insert_ne by done.
      by apply cleanUpdateData_protected. }
    subst set3. destruct (is_undefined _); [done |].
    by rewrite lookup_insert_ne. }
  destruct cur as [c |].
  - destruct (shouldAddHistory d && hasActualChanges d c) eqn:Hc.
    + destruct (historyEntry d (Some c) now) as [entry |] eqn:He; cbn; [| done].
      intros [= <-]. cbn. repeat split; try done.
      right. exists c, entry. apply andb_true_iff in Hc as [? ?]. done.
    + intros [= <-]. cbn. repeat split; try done. left. split; [done |].
      by intros ? [= <-].
  - intros [= <-]. cbn. repeat split; try done. left. split; [done |]. done.
Qed.

Lemma field_union_protected (s doc : obj) k :
  s !! k = None -> (s ∪ doc) !! k = doc !! k.
Proof. intros H. by rewrite lookup_union_r. Qed.

(** [$push] with [$slice: -20] stores the last 20 entries of the history
    followed by the new entry. *)
Lemma apply_push_slice entry doc doc' :
  apply_push (mkPush entry (Some (-20))) doc = Ok doc' ->
  doc' = <["history" := VArr (lastn 20 (stored_history doc ++ [entry]))]> doc.
Proof.
  unfold apply_push, stored_history.
  destruct (field doc "history"); try done; by intros [= <-].
Qed.

(** The write of a call leaves every protected field but [history] as it
    was, and the history either as it was or with one entry appended and the
    result cut to its last 20. *)
Lemma wrote_frame id d docs docs' doc doc' ops :
  wrote id d docs docs' doc doc' ops ->
  doc' !! "createdAt" = doc !! "createdAt"
  /\ doc' !! "id" = doc !! "id"
  /\ doc' !! "_id" = doc !! "_id"
  /\ ((doc' !! "history" = doc !! "history"
       /\ shouldAddHistory d && hasActualChanges d doc = false)
      \/ (exists entry now,
            shouldAddHistory d = true /\ hasActualChanges d doc = true
            /\ historyEntry d (Some doc) now = Ok entry
            /\ doc' !! "history" = Some (VArr (lastn 20 (stored_history doc ++ [entry]))))).
Proof.
  intros (Hdoc & (now & Hb) & Ha & ->).
  apply build_operations_shape in Hb as (Hpos & Hset & Hpush).
  unfold apply_update in Ha. rewrite Hpos in Ha. cbn in Ha.
  rewrite (Hset "_id") in Ha by (unfold protected; tauto).
  destruct Hpush as [[Hp Hno] | (c & entry & Hc & Hs & Hh & He & Hp)]; rewrite Hp in Ha.
  - injection Ha as <-.
    rewrite !field_union_protected by (apply Hset; unfold protected; tauto).
    repeat split. left. split; [done |].
    unfold snapshot_read in Hno.
    destruct (shouldAddHistory d) eqn:Hs; [| done].
    by apply Hno.
  - cbn in Ha. destruct (apply_push _ _) as [doc3 |] eqn:Hpush; cbn in Ha; [| done].
    injection Ha as <-. apply apply_push_slice in Hpush as ->.
    rewrite !lookup_insert_ne by done.
    rewrite !field_union_protected by (apply Hset; unfold protected; tauto).
    repeat split. right. exists entry, now.
    unfold snapshot_read in Hc. rewrite Hs in Hc. injection Hc as <-.
    repeat split; try done.
    + unfold snapshot_read in He. by rewrite Hs in He.
    + rewrite lookup_insert_eq. do 3 f_equal.
      unfold stored_history, field.
      rewrite field_union_protected by (apply Hset; unfold protected; tauto). done.
Qed.

Lemma history_of_stored w id :
  history_of w id = from_option stored_history [] (db w !! id).
Proof. unfold history_of, stored_history. by destruct (db w !! id). Qed.

Lemma stored_history_eq doc doc' :
  doc' !! "history" = doc !! "history" -> stored_history doc' = stored_history doc.
Proof. unfold stored_history, field. by intros ->. Qed.

(** The outcome of a run, as far as the collection goes: nothing was written,
    or the document [doc] of the call's id was replaced by [doc']. *)
Lemma run_update_cases n w id d :
  db (run n w (update id d)).1 = db w
  \/ exists doc doc' ops,
       wrote id d (db w) (db (run n w (update id d)).1) doc doc' ops
       /\ exists o, pc (run n w (update id d)).2 = Settled o.
Proof.
  pose proof (run_update_effect n w id d) as (_ & _ & H).
  destruct (pc (run n w (update id d)).2) as [| | ? ops | | o] eqn:Hpc; try (left; tauto).
  destruct H as [[H _] | (doc & doc' & ops & Hw & _)]; [by left |].
  right. exists doc, doc', ops. split; [done | by exists o].
Qed.


Lemma wrote_lookup id d docs docs' doc doc' ops :
  wrote id d docs docs' doc doc' ops -> docs !! id = Some doc /\ docs' !! id = Some doc'.
Proof. intros (H & _ & _ & ->). split; [done | apply lookup_insert_eq]. Qed.

(** ** Frame: what a patch cannot reach *)


(** ** The sub-goal cost endpoint *)



Lemma findOne_ok w id r w' :
  findOne w id = (Ok r, w') -> r = db w !! id /\ db w' = db w /\ clock w' = clock w.
Proof.
  unfold findOne.
  pose proof (round_trip_frame w) as (Hdb & _ & Hc).
  destruct (round_trip w) as [[[] | e] w1]; cbn in *; [| done].
  intros [= <- <-]. by rewrite Hdb.
Qed.





Lemma field_union_r (s doc : obj) k : s !! k = None -> field (s ∪ doc) k = field doc k.
Proof. intros H. unfold field. by rewrite lookup_union_r. Qed.


Lemma stored_history_frame (s doc : obj) :
  s !! "history" = None -> stored_history (s ∪ doc) = stored_history doc.
Proof. intros H. unfold stored_history. by rewrite field_union_r. Qed.



(** ** The bounded ledger *)





(** The stored history after any number of steps of an update call. *)
Lemma run_update_history n w id d :
  (history_of (run n w (update id d)).1 id = history_of w id
   /\ (stored_field (run n w (update id d)).1 id "history" = stored_field w id "history"))
  \/ exists doc entry now,
       db w !! id = Some doc
       /\ shouldAddHistory d = true /\ hasActualChanges d doc = true
       /\ historyEntry d (Some doc) now = Ok entry
       /\ history_of (run n w (update id d)).1 id = ledger_append (history_of w id) entry.
Proof.
  rewrite !history_of_stored. unfold stored_field.
  destruct (run_update_cases n w id d) as [-> | (doc & doc' & ops & Hw & _)]; [by left |].
  pose proof (wrote_lookup _ _ _ _ _ _ _ Hw) as [Hdoc Hdoc'].
  pose proof (wrote_frame _ _ _ _ _ _ _ Hw) as (_ & _ & _ & Hh).
  rewrite Hdoc, Hdoc'. cbn.
  destruct Hh as [[Hh _] | (entry & now & Hs & Ha & He & Hh)].
  - left. split; [by apply stored_history_eq | done].
  - right. exists doc, entry, now. repeat split; try done.
    unfold stored_history at 1, field. by rewrite Hh.
Qed.


(** ** No-op suppression *)

Lemma no_change_detected patch doc :
  same_status patch doc -> same_subgoal_count patch doc -> same_total_cost patch doc ->
  hasActualChanges patch doc = false.
Proof.
  intros Hs Hg Hc. unfold hasActualChanges, shouldAddHistoryForField. cbn.
  apply orb_false_iff. split; [apply orb_false_iff; split |].
  - destruct Hc as [-> | (c & -> & ->)]; [done |]. cbn.
    unfold js_or. cbn. destruct (c =? 0) eqn:Hc; cbn.
    + apply Z.eqb_eq in Hc as ->. done.
    + by rewrite Z.eqb_refl.
  - destruct Hs as [-> | (s & -> & ->)]; [done |]. cbn.
    rewrite String.eqb_refl. by destruct (negb _).
  - destruct Hg as [(l & l' & -> & -> & Hlen) | [-> [-> | ->]]]; try done.
    cbn. rewrite Hlen. unfold js_or. cbn.
    destruct (Z.of_nat (length l') =? 0); cbn; [done |]. by rewrite Z.eqb_refl.
Qed.



(** ** Bounded history *)



(** ** Classification of the entry *)





(** ** Aggregates after a sub-goal cost update *)





(** The same fallback is taken for a project whose [originalCost] is 0: a
    second cost update counts the goal costs twice. *)
Example zero_original_cost_counts_goals_twice :
  let doc := project "in-progress" (costs 0 500) [subgoal "a" (VNum (Fin 500))] [] in
  let r := updateSubgoalCost (world_of doc) pid "a" {[ "goalCost" := VNum (Fin 500) ]} in
  status_code r.1 = 200%nat
  /\ stored_field r.2 pid "originalCost" = Some (VNum (Fin 0))
  /\ stored_field r.2 pid "totalGoalsCost" = Some (VNum (Fin 500))
  /\ stored_field r.2 pid "totalCost" = Some (VNum (Fin 1000)).
Proof. vm_compute. done. Qed.

(** ** Attempts, one by one *)

Lemma run_plus n m w t :
  run (n + m) w t = run m (run n w t).1 (run n w t).2.
Proof.
  revert w t. induction n as [| n IH]; intros w t; [done |].
  cbn. destruct (step w t) as [w' t']. apply IH.
Qed.

Lemma run_settled n w t o : pc t = Settled o -> run n w t = (advance n w, t).
Proof.
  revert w. induction n as [| n IH]; intros w H.
  - by destruct w.
  - cbn. unfold step. rewrite H. rewrite IH by done.
    unfold advance, tick. cbn. do 2 f_equal. lia.
Qed.










(** A call with an id that is not an ObjectId. *)
Lemma attempt_with_invalid_id docs locks out c id d rc tm :
  locks !! id = None -> ObjectId_isValid id = false ->
  run 1 (mkWorld docs locks out c) (mkTask id d (Entry rc) tm)
  = (mkWorld docs locks out (1 + c),
     mkTask id d (Settled (Rejected (PlainError "Invalid project ID"))) tm).
Proof.
  intros Hl Hv.
  cbn [run]. unfold step. cbn [pc]. unfold enter. cbn [updateLocks projectId updateData].
  rewrite Hl, Hv. cbn.
  unfold release, set_locks, set_db, tick, goto. cbn.
  by rewrite delete_insert_id.
Qed.

(** A call that finds its id locked, with nothing else scheduled: it polls. *)
Lemma run_locked n : forall docs locks out c id d rc tm,
  is_Some (locks !! id) ->
  run n (mkWorld docs locks out c) (mkTask id d (Entry rc) tm)
  = (mkWorld docs locks out (n + c), mkTask id d (Entry rc) (tm ++ replicate n 100)).
Proof.
  induction n as [| n IH]; intros docs locks out c id d rc tm Hl.
  - cbn. by rewrite app_nil_r.
  - cbn [run]. unfold step. cbn [pc]. unfold enter. cbn [updateLocks projectId].
    destruct Hl as [b Hb]. rewrite Hb. unfold sleep, goto, tick. cbn.
    rewrite IH by (by exists b). rewrite <- app_assoc. cbn.
    by replace (n + S c)%nat with (S (n + c)) by lia.
Qed.

(** ** Retry policy *)

Lemma world_eta w : w = mkWorld (db w) (updateLocks w) (outage w) (clock w).
Proof. by destruct w. Qed.




(** ** Waiting for the lock *)

(** C5 (as amended). An update call that finds its project id locked polls
    every 100 ms for as long as the id stays locked, without any bound: after
    any number n of polls it has awaited n timers of 100 ms, has written
    nothing and is still at its entry; it does not fail with a timeout. *)
Theorem locked_update_polls_without_bound (w : World) (id : string) (patch : obj) (n : nat) :
  is_Some (updateLocks w !! id) ->
  run n w (update id patch)
  = (advance n w, mkTask id patch (Entry 0) (replicate n 100)).
Proof.
  intros Hl. rewrite (world_eta w) at 1. unfold update.
  by rewrite run_locked.
Qed.

(** Five polls of a call that finds its id locked. *)
Lemma locked_update_polls_without_bound_witness :
  let w := set_locks (insert pid true) (world_of (project "waiting" ∅ [] [])) in
  is_Some (updateLocks w !! pid)
  /\ timers (run 5 w (update pid {[ "status" := VStr "planning" ]})).2
     = [100; 100; 100; 100; 100].
Proof.
  cbn zeta.
  assert (is_Some (updateLocks
                     (set_locks (insert pid true) (world_of (project "waiting" ∅ [] [])))
                   !! pid)) as Hl by (by exists true).
  split; [exact Hl |].
  by rewrite (locked_update_polls_without_bound _ pid _ 5 Hl).
Defined.

(** C5, as stated, fails: with the id locked and nothing releasing it, no
    number of polls settles the call, so it is never rejected with a
    timeout. *)
Lemma locked_update_never_times_out :
  let w := set_locks (insert pid true) (world_of (project "waiting" ∅ [] [])) in
  ~ exists n, is_Some (outcome (run n w (update pid {[ "status" := VStr "planning" ]})).2).
Proof.
  cbn zeta. intros [n Hn]. unfold update, world_of, set_locks in Hn. cbn in Hn.
  rewrite run_locked in Hn by (by exists true).
  by destruct Hn.
Qed.

(** ** Update of a missing project *)



(** ** Release of the lock *)

Ltac retry_lia := unfold maxRetries in *; cbn [remaining] in *; lia.

Lemma release_unlocked w t p : unlocked_at_rest (release (projectId t) w) (goto p t).
Proof. unfold unlocked_at_rest. cbn. destruct p; try done; apply lookup_delete_eq. Qed.

Lemma on_error_progress w t rc e :
  projectId (on_error w t rc e).2 = projectId t
  /\ unlocked_at_rest (on_error w t rc e).1 (on_error w t rc e).2
  /\ (remaining (pc (on_error w t rc e).2) <= 4 * (maxRetries - rc))%nat.
Proof.
  unfold on_error. destruct (is_transient e); cbn [andb].
  - destruct (rc <? maxRetries)%nat eqn:Hrc; cbn.
    + apply Nat.ltb_lt in Hrc. repeat split; try done. retry_lia.
    + repeat split; [apply (release_unlocked w t (Settled (Rejected e))) | retry_lia].
  - cbn. repeat split; [apply (release_unlocked w t (Settled (Rejected e))) | retry_lia].
Qed.

Lemma continue_with_progress w t rc cur now :
  projectId (continue_with w t rc cur now).2 = projectId t
  /\ unlocked_at_rest (continue_with w t rc cur now).1 (continue_with w t rc cur now).2
  /\ (remaining (pc (continue_with w t rc cur now).2) <= 1 + 4 * (maxRetries - rc))%nat.
Proof.
  unfold continue_with. destruct (build_operations _ _ _) as [ops | e].
  - cbn. repeat split; try done.
  - destruct (on_error_progress w t rc e) as (? & ? & ?). repeat split; try done. retry_lia.
Qed.

Lemma enter_free_progress w t rc :
  updateLocks w !! projectId t = None ->
  projectId (enter w t rc).2 = projectId t
  /\ unlocked_at_rest (enter w t rc).1 (enter w t rc).2
  /\ (remaining (pc (enter w t rc).2) <= 2 + 4 * (maxRetries - rc))%nat.
Proof.
  intros Hl. unfold enter. rewrite Hl.
  destruct (negb _).
  - destruct (on_error_progress (set_locks (insert (projectId t) true) w) t rc
                (PlainError "Invalid project ID")) as (? & ? & ?).
    repeat split; try done. retry_lia.
  - destruct (shouldAddHistory _); [by repeat split |].
    destruct (continue_with_progress (set_locks (insert (projectId t) true) w) t rc None
                (toISOString (clock (set_locks (insert (projectId t) true) w)))) as (? & ? & ?).
    repeat split; try done. retry_lia.
Qed.

Lemma unlocked_after_release w t' id :
  projectId t' = id -> unlocked_at_rest (release id w) t'.
Proof.
  intros <-. unfold unlocked_at_rest. destruct (pc t'); try done; apply lookup_delete_eq.
Qed.

(** Every step of a call that is not kept waiting brings it closer to
    settling. *)
Lemma step_progress w t :
  unlocked_at_rest w t ->
  projectId (step w t).2 = projectId t
  /\ unlocked_at_rest (step w t).1 (step w t).2
  /\ ((remaining (pc (step w t).2) < remaining (pc t))%nat \/ exists o, pc t = Settled o).
Proof.
  intros Hu. unfold unlocked_at_rest in Hu. unfold step.
  destruct (pc t) as [rc | rc now | rc ops | rc | o] eqn:Ht.
  - destruct (enter_free_progress w t rc Hu) as (? & ? & ?).
    repeat split; try done. left. cbn. retry_lia.
  - destruct (findOne w (projectId t)) as [[cur | e] w'].
    + destruct (continue_with_progress w' t rc cur now) as (? & ? & ?).
      repeat split; try done. left. cbn. retry_lia.
    + destruct (on_error_progress w' t rc e) as (? & ? & ?).
      repeat split; try done. left. cbn. retry_lia.
  - destruct (findOneAndUpdate w (FId (projectId t)) ops) as [[[result |] | e] w'].
    + destruct (log_latest_entry result) as [[] | e].
      * cbn. repeat split; [apply lookup_delete_eq | left; retry_lia].
      * destruct (on_error_progress w' t rc e) as (? & ? & ?).
        repeat split; try done. left. cbn. retry_lia.
    + destruct (on_error_progress w' t rc (PlainError "Project not found")) as (? & ? & ?).
      repeat split; try done. left. cbn. retry_lia.
    + destruct (on_error_progress w' t rc e) as (? & ? & ?).
      repeat split; try done. left. cbn. retry_lia.
  - destruct (updateLocks w !! projectId t) as [b |] eqn:Hl.
    + unfold enter. rewrite Hl. cbn.
      repeat split; [apply lookup_delete_eq | left; retry_lia].
    + destruct (enter_free_progress w t (S rc) Hl) as (Hid & _ & Hr).
      destruct (enter w t (S rc)) as [w' t']. cbn in *.
      repeat split; [done | by apply unlocked_after_release | left; retry_lia].
  - cbn. unfold unlocked_at_rest. rewrite Ht. repeat split; try done. right. by exists o.
Qed.

Lemma tick_unlocked w t : unlocked_at_rest w t -> unlocked_at_rest (tick w) t.
Proof. done. Qed.

(** A call that is not kept waiting settles within [remaining] steps, and
    the lock of its id is free from then on. *)
Lemma run_settles n : forall w t,
  unlocked_at_rest w t -> (remaining (pc t) <= n)%nat ->
  (exists o, pc (run n w t).2 = Settled o)
  /\ updateLocks (run n w t).1 !! projectId t = None.
Proof.
  induction n as [| n IH]; intros w t Hu Hr.
  - cbn. destruct (pc t) eqn:Ht; cbn in Hr; try retry_lia.
    unfold unlocked_at_rest in Hu. rewrite Ht in Hu. split; [by eexists | done].
  - destruct (step_progress w t Hu) as (Hid & Hu' & [Hlt | [o Ho]]).
    + cbn [run]. destruct (step w t) as [w' t']. cbn [fst snd] in *.
      rewrite <- Hid. apply IH; [by apply tick_unlocked | retry_lia].
    + rewrite (run_settled _ _ _ o Ho). cbn.
      unfold unlocked_at_rest in Hu. rewrite Ho in Hu. split; [by eexists | done].
Qed.

Lemma on_error_settles w t rc e o :
  outcome (on_error w t rc e).2 = Some o ->
  updateLocks (on_error w t rc e).1 !! projectId t = None.
Proof.
  destruct (on_error_cases w t rc e) as [-> | ->]; cbn; [done |].
  intros _. apply lookup_delete_eq.
Qed.

Lemma continue_with_settles w t rc cur now o :
  outcome (continue_with w t rc cur now).2 = Some o ->
  updateLocks (continue_with w t rc cur now).1 !! projectId t = None.
Proof.
  unfold continue_with. destruct (build_operations _ _ _); [done |].
  apply on_error_settles.
Qed.

(** Whatever else is scheduled around it, the step that settles a call leaves
    the id of the call unlocked. *)
Lemma step_settle_releases w t o :
  outcome t = None -> outcome (step w t).2 = Some o ->
  updateLocks (step w t).1 !! projectId t = None.
Proof.
  unfold outcome at 1, step.
  destruct (pc t) as [rc | rc now | rc ops | rc | o'] eqn:Ht; [| | | | done]; intros _.
  - unfold enter. destruct (updateLocks w !! projectId t); [done |].
    destruct (negb _); [apply on_error_settles |].
    destruct (shouldAddHistory _); [done | apply continue_with_settles].
  - destruct (findOne w (projectId t)) as [[cur | e] w'];
      [apply continue_with_settles | apply on_error_settles].
  - destruct (findOneAndUpdate w (FId (projectId t)) ops) as [[[result |] | e] w'];
      [| apply on_error_settles | apply on_error_settles].
    destruct (log_latest_entry result); [| apply on_error_settles].
    intros _. apply lookup_delete_eq.
  - destruct (enter w t (S rc)) as [w' t']. intros _. apply lookup_delete_eq.
Qed.

Lemma enter_free_not_entry w t rc rc' :
  updateLocks w !! projectId t = None -> pc (enter w t rc).2 <> Entry rc'.
Proof.
  intros Hl. unfold enter. rewrite Hl.
  assert (forall w e, pc (on_error w t rc e).2 <> Entry rc') as Herr.
  { intros w0 e. by destruct (on_error_cases w0 t rc e) as [-> | ->]. }
  destruct (negb _); [apply Herr |].
  destruct (shouldAddHistory _); [done |].
  unfold continue_with. destruct (build_operations _ _ _); [done | apply Herr].
Qed.

(** C7. An update call releases the lock of its project on every exit path:
    whatever else is scheduled, the step that settles a call, resolved or
    rejected with any error, leaves the lock map without its id; and a call
    that finds the lock free settles within 15 steps, after which the id is
    unlocked and the next update of the same id acquires the lock at once. *)
Theorem update_releases_lock (w : World) (id : string) (patch : obj) :
  (forall t o,
      outcome t = None -> outcome (step w t).2 = Some o ->
      updateLocks (step w t).1 !! projectId t = None)
  /\ (updateLocks w !! id = None ->
      let r := run 15 w (update id patch) in
      (exists o, outcome r.2 = Some o)
      /\ updateLocks r.1 !! id = None
      /\ forall patch', pc (step r.1 (update id patch')).2 <> Entry 0).
Proof.
  split; [intros t o; apply step_settle_releases |].
  intros Hl. cbn zeta.
  destruct (run_settles 15 w (update id patch)) as [[o Ho] Hr]; [done | cbn; lia |].
  split; [exists o; unfold outcome; by rewrite Ho |].
  split; [done |].
  intros patch'. unfold step. cbn [pc update]. by apply enter_free_not_entry.
Qed.

(** The four exit paths: a resolved call, an invalid id, a missing project
    and retries exhausted by five timeouts; each leaves the lock map empty. *)
Example every_exit_path_releases :
  let w := world_of (project "waiting" (costs 1000 1000) [] [created_entry]) in
  let exit (w : World) (id : string) :=
    let r := run 15 w (update id {[ "status" := VStr "planning" ]}) in
    (outcome r.2, updateLocks r.1) in
  (exists snap, exit w pid = (Some (Resolved snap), ∅))
  /\ exit w "not-an-object-id" = (Some (Rejected (PlainError "Invalid project ID")), ∅)
  /\ exit w "688e043e148561ceaaf4741e" = (Some (Rejected (PlainError "Project not found")), ∅)
  /\ exit (set_outage (replicate 5 transient_error) w) pid = (Some (Rejected transient_error), ∅).
Proof. vm_compute. split; [by eexists | done]. Qed.

(** ** Two calls in one process *)


















Section TwoCalls.
Variables (id : string) (patchA patchB : obj) (w0 : World).










End TwoCalls.



(** Two calls whose steps alternate: the second polls twice while the first
    holds the lock; both are resolved and the history has two entries more. *)
Example alternating_updates_both_recorded :
  let w := world_of (project "waiting" (costs 1000 1000) [] [created_entry]) in
  let '(w', a, b) :=
    interleave [false; true; false; true; false; true; true; true; true]
      (w, update pid {[ "status" := VStr "in-progress" ]},
          update pid {[ "totalCost" := VNum (Fin 2000) ]}) in
  (exists sa sb, outcome a = Some (Resolved sa) /\ outcome b = Some (Resolved sb))
  /\ length (history_of w' pid) = 3%nat
  /\ stored_field w' pid "status" = Some (VStr "in-progress")
  /\ stored_field w' pid "totalCost" = Some (VNum (Fin 2000))
  /\ timers a = [] /\ timers b = [100; 100].
Proof. vm_compute. split; [by do 2 eexists | done]. Qed.


(** ** What a call of [update] stores *)

Lemma set_if_defined_id k d acc acc' :
  acc !! k = d !! k -> set_if_defined k d acc = Ok acc' -> acc' = acc.
Proof.
  intros Hk. unfold set_if_defined, field.
  destruct (d !! k) as [v |] eqn:Hd; cbn.
  - destruct (is_undefined v); [by intros [= <-] |].
    destruct (length_of v); cbn; [| done].
    intros [= <-]. by apply insert_id.
  - by intros [= <-].
Qed.

Lemma cleanUpdateData_lookup d k : ~ protected k -> cleanUpdateData d !! k = d !! k.
Proof.
  intros Hk. unfold cleanUpdateData, protected in *.
  rewrite !lookup_delete_ne by (intros <-; tauto). done.
Qed.

(** The three assignments of lines 385-398 repeat what [cleanData] holds
    already. *)
Lemma build_operations_set d cur now ops :
  build_operations d cur now = Ok ops -> op_set ops = set_document d now.
Proof.
  unfold build_operations, set_document.
  set (cleanData := <["updatedAt" := now]> (cleanUpdateData d)).
  assert (forall k, ~ protected k -> k <> "updatedAt" -> cleanData !! k = d !! k) as Hc.
  { intros k Hk Hne. unfold cleanData. rewrite lookup_insert_ne by done.
    by apply cleanUpdateData_lookup. }
  destruct (set_if_defined "subgoals" _ _) as [set1 |] eqn:H1; cbn [bind]; [| done].
  apply set_if_defined_id in H1 as ->; [| apply Hc; unfold protected; intuition congruence].
  destruct (set_if_defined "images" _ _) as [set2 |] eqn:H2; cbn [bind]; [| done].
  apply set_if_defined_id in H2 as ->; [| apply Hc; unfold protected; intuition congruence].
  assert ((if is_undefined (field d "totalCost") then cleanData
           else <["totalCost" := field d "totalCost"]> cleanData) = cleanData) as ->.
  { pose proof (Hc "totalCost") as Ht. unfold field.
    destruct (d !! "totalCost") as [v |] eqn:Hd; cbn.
    - destruct (is_undefined v); [done |]. apply insert_id.
      apply Ht; unfold protected; intuition congruence.
    - done. }
  destruct cur as [c |].
  - destruct (_ && _).
    + destruct (historyEntry _ _ _); cbn [bind]; [| done]. by intros [= <-].
    + by intros [= <-].
  - by intros [= <-].
Qed.

Lemma set_document_lookup d now k :
  set_document d now !! k
  = if decide (k = "updatedAt") then Some now
    else if decide (protected k) then None else d !! k.
Proof.
  unfold set_document. destruct (decide (k = "updatedAt")) as [-> | Hne].
  - apply lookup_insert_eq.
  - rewrite lookup_insert_ne by done.
    destruct (decide (protected k)) as [Hp | Hp].
    + by apply cleanUpdateData_protected.
    + by apply cleanUpdateData_lookup.
Qed.

Lemma set_document_history d now : set_document d now !! "history" = None.
Proof.
  unfold set_document. rewrite lookup_insert_ne by done.
  apply cleanUpdateData_protected. unfold protected. tauto.
Qed.

(** The document that a write of [update] stores. *)
Lemma wrote_result id d docs docs' doc doc' ops :
  wrote id d docs docs' doc doc' ops ->
  exists now,
    doc' = set_document d now ∪ doc
    \/ exists entry,
         historyEntry d (Some doc) now = Ok entry
         /\ doc' = <["history" := VArr (lastn 20 (stored_history doc ++ [entry]))]>
                     (set_document d now ∪ doc).
Proof.
  intros (Hdoc & (now & Hb) & Ha & ->). exists now.
  pose proof (build_operations_set _ _ _ _ Hb) as Hset.
  apply build_operations_shape in Hb as (Hpos & Hprot & Hpush).
  unfold apply_update in Ha. rewrite Hpos in Ha. cbn in Ha.
  rewrite (Hprot "_id") in Ha by (unfold protected; tauto).
  rewrite Hset in Ha.
  destruct Hpush as [[Hp _] | (c & entry & Hc & Hs & _ & He & Hp)]; rewrite Hp in Ha.
  - left. by injection Ha as <-.
  - right. cbn in Ha. destruct (apply_push _ _) as [doc3 |] eqn:Hpush; cbn in Ha; [| done].
    injection Ha as <-. apply apply_push_slice in Hpush as ->.
    unfold snapshot_read in Hc, He. rewrite Hs in Hc, He. injection Hc as <-.
    exists entry. split; [done |].
    rewrite stored_history_frame; [done | apply set_document_history].
Qed.



(** ** Reading back *)










(** ** A patch with a null list *)

Lemma build_operations_null d cur now :
  field d "subgoals" = VNull \/ field d "images" = VNull ->
  build_operations d cur now = Throw (TypeError "Cannot read properties of null").
Proof.
  intros H. unfold build_operations.
  destruct (set_if_defined "subgoals" _ _) as [set1 | e] eqn:H1.
  - cbn [bind]. destruct H as [H | H].
    + unfold set_if_defined in H1. by rewrite H in H1.
    + unfold set_if_defined at 1. by rewrite H.
  - cbn [bind]. unfold set_if_defined in H1.
    destruct (is_undefined _); [done |].
    destruct (field d "subgoals"); cbn in H1; congruence.
Qed.

(** X3. A patch whose [subgoals] or [images] is [null] is never applied by
    ProjectService.update: the collection stays as it was and the call never
    resolves; with a well-formed id, a free lock and a healthy store the call
    is rejected at once with the TypeError of reading [length] of [null],
    without a retry, and the lock is free again. *)
Theorem update_with_null_list_is_rejected (n : nat) (w : World) (id : string) (patch : obj) :
  field patch "subgoals" = VNull \/ field patch "images" = VNull ->
  let r := run n w (update id patch) in
  db r.1 = db w
  /\ (forall snap, outcome r.2 <> Some (Resolved snap))
  /\ (updateLocks w !! id = None -> ObjectId_isValid id = true -> outage w = [] ->
      (2 <= n)%nat ->
      outcome r.2 = Some (Rejected (TypeError "Cannot read properties of null"))
      /\ timers r.2 = []
      /\ updateLocks r.1 !! id = None).
Proof.
  intros Hnull. cbn zeta.
  assert (forall m, db (run m w (update id patch)).1 = db w) as Hdb.
  { intros m.
    destruct (run_update_cases m w id patch) as [H | (doc & doc' & ops & Hw & _)]; [done |].
    destruct Hw as (_ & (now & Hb) & _). by rewrite build_operations_null in Hb. }
  split; [apply Hdb |]. split.
  - intros snap Ho.
    assert (pc (run n w (update id patch)).2 = Settled (Resolved snap)) as Hpc
      by (unfold outcome in Ho; destruct (pc _); congruence).
    pose proof (run_update_effect n w id patch) as (_ & _ & H). rewrite Hpc in H.
    destruct H as [[_ H] | (doc & doc' & ops & Hw & _)]; [by destruct (H snap) |].
    destruct Hw as (_ & (now & Hb) & _). by rewrite build_operations_null in Hb.
  - intros Hl Hv Ho Hn.
    assert (run 2 w (update id patch)
            = (advance 2 w,
               mkTask id patch (Settled (Rejected (TypeError "Cannot read properties of null"))) []))
      as H2.
    { rewrite (world_eta w) at 1. rewrite Ho. unfold update.
      cbn [run]. unfold step at 1. cbn [pc]. unfold enter.
      cbn [updateLocks projectId updateData]. rewrite Hl, Hv. cbn [negb].
      destruct (shouldAddHistory patch) eqn:Hs.
      - unfold step at 1. cbn. unfold continue_with. cbn.
        rewrite build_operations_null by done.
        rewrite on_error_permanent by done.
        unfold step. cbn. unfold release, set_locks, tick, goto, advance. cbn.
        by rewrite delete_insert_id, Ho.
      - unfold continue_with. cbn [updateData].
        rewrite build_operations_null by done.
        rewrite on_error_permanent by done.
        unfold step. cbn. unfold release, set_locks, tick, goto, advance. cbn.
        by rewrite delete_insert_id, Ho. }
    replace n with (2 + (n - 2))%nat by lia.
    rewrite run_plus, H2. cbn [fst snd].
    rewrite (run_settled _ _ _ (Rejected (TypeError "Cannot read properties of null")))
      by done.
    done.
Qed.

Lemma update_with_null_list_is_rejected_witness :
  let w := world_of (project "waiting" (costs 1000 1000) [] [created_entry]) in
  let patch : obj := <["status" := VStr "planning"]> {[ "images" := VNull ]} in
  let r := run 2 w (update pid patch) in
  db r.1 = db w
  /\ outcome r.2 = Some (Rejected (TypeError "Cannot read properties of null")).
Proof.
  cbn zeta.
  destruct (update_with_null_list_is_rejected 2
              (world_of (project "waiting" (costs 1000 1000) [] [created_entry])) pid
              (<["status" := VStr "planning"]> {[ "images" := VNull ]}))
    as (Hdb & _ & H); [right; reflexivity |].
  split; [exact Hdb |].
  destruct H as (Ho & _); [reflexivity | reflexivity | reflexivity | lia | exact Ho].
Defined.

(** ** The same patch, sent twice *)

Lemma resolved_wrote n w id d snap :
  pc (run n w (update id d)).2 = Settled (Resolved snap) ->
  exists doc doc' ops, wrote id d (db w) (db (run n w (update id d)).1) doc doc' ops.
Proof.
  intros Hpc.
  pose proof (run_update_effect n w id d) as (_ & _ & H). rewrite Hpc in H.
  destruct H as [[_ H] | (doc & doc' & ops & Hw & _)]; [by destruct (H snap) |].
  by exists doc, doc', ops.
Qed.

(** X4. After ProjectService.update has resolved for a patch whose status is a
    string, whose totalCost is a number (each may be left out) and whose
    subgoals are a list, sending the same patch again for the same project
    leaves the history of the project as it is, however far the second call
    gets. *)
Theorem repeated_patch_appends_nothing
  (n m : nat) (w : World) (id : string) (patch : obj) (snap : obj) :
  plain_patch patch ->
  let r := run n w (update id patch) in
  outcome r.2 = Some (Resolved snap) ->
  history_of (run m r.1 (update id patch)).1 id = history_of r.1 id.
Proof.
  intros (Hs & Hc & (l & Hg)). cbn zeta. intros Ho.
  assert (pc (run n w (update id patch)).2 = Settled (Resolved snap)) as Hpc
    by (unfold outcome in Ho; destruct (pc _); congruence).
  destruct (resolved_wrote _ _ _ _ _ Hpc) as (doc & doc' & ops & Hw).
  pose proof (wrote_lookup _ _ _ _ _ _ _ Hw) as [_ Hdoc'].
  destruct (wrote_result _ _ _ _ _ _ _ Hw) as [now Hres].
  assert (forall k v, patch !! k = Some v -> ~ protected k -> k <> "updatedAt" ->
                      field doc' k = v) as Hset.
  { intros k v Hp Hprot Hne. unfold field.
    assert (k <> "history") as Hh by (intros ->; apply Hprot; unfold protected; tauto).
    assert ((set_document patch now ∪ doc) !! k = Some v) as Hk.
    { apply lookup_union_Some_l. rewrite set_document_lookup.
      rewrite decide_False by done. by rewrite decide_False. }
    destruct Hres as [-> | (entry & _ & ->)]; [by rewrite Hk |].
    rewrite lookup_insert_ne by done. by rewrite Hk. }
  assert (forall k, ~ protected (k : string)
                    <-> (k <> "id" /\ k <> "_id" /\ k <> "createdAt" /\ k <> "history")) as Hnp
    by (intros k; unfold protected; tauto).
  destruct (run_update_history m (run n w (update id patch)).1 id patch)
    as [[H _] | (doc2 & entry & now2 & Hdoc2 & _ & Ha & _)]; [done |].
  rewrite Hdoc' in Hdoc2. injection Hdoc2 as <-.
  rewrite no_change_detected in Ha; [done | | |].
  - destruct Hs as [Hs | (s & Hs)]; [by left |]. right. exists s.
    split; [unfold field; by rewrite Hs |]. apply Hset; [done | by apply Hnp | done].
  - left. exists l, l. split; [unfold field; by rewrite Hg |].
    split; [| done]. apply Hset; [done | by apply Hnp | done].
  - destruct Hc as [Hc | (c & Hc)]; [by left |]. right. exists c.
    split; [unfold field; by rewrite Hc |]. apply Hset; [done | by apply Hnp | done].
Qed.

Lemma repeated_patch_appends_nothing_witness :
  let w := world_of (project "waiting" (costs 1000 1000) [subgoal "a" (VNum (Fin 0))]
                       [created_entry]) in
  let patch : obj := <["status" := VStr "planning"]>
                       {[ "subgoals" := VArr [subgoal "a" (VNum (Fin 0))] ]} in
  let r := run 3 w (update pid patch) in
  plain_patch patch
  /\ length (history_of r.1 pid) = 2%nat
  /\ history_of (run 3 r.1 (update pid patch)).1 pid = history_of r.1 pid.
Proof.
  cbn zeta.
  assert (plain_patch (<["status" := VStr "planning"]>
                         {[ "subgoals" := VArr [subgoal "a" (VNum (Fin 0))] ]})) as Hp.
  { split; [right; by eexists | split; [by left | by eexists]]. }
  split; [exact Hp |]. split; [vm_compute; reflexivity |].
  eapply (repeated_patch_appends_nothing 3 3); [exact Hp | vm_compute; reflexivity].
Defined.

(** ** The bound on retries *)

Lemma delays_S k : delays (S k) = delays k ++ [1000 * (Z.of_nat k + 1)].
Proof. unfold delays. rewrite seq_S, fmap_app. done. Qed.

Lemma backoffs_sleep ms t :
  backoffs (sleep ms t) = backoffs t ++ (if decide (1000 <= ms) then [ms] else []).
Proof.
  unfold backoffs, sleep. cbn. by rewrite filter_app.
Qed.

Lemma on_error_retried w t rc e :
  Forall (fun ms => ms = 100 \/ 1000 <= ms) (timers t) ->
  (rc <= maxRetries)%nat -> backoffs t = delays rc ->
  retried (on_error w t rc e).2.
Proof.
  intros Ht Hrc Hb. unfold on_error.
  destruct (is_transient e && (rc <? maxRetries)%nat) eqn:E; cbn [snd].
  - apply andb_true_iff in E as [_ E%Nat.ltb_lt]. split.
    + cbn. apply Forall_app. split; [done |]. constructor; [| done]. right. lia.
    + cbn [pc sleep goto]. split; [done |].
      rewrite backoffs_sleep, delays_S. rewrite decide_True by lia.
      unfold backoffs in *. cbn. by rewrite Hb.
  - split; [done |]. cbn. exists rc. done.
Qed.

Lemma continue_with_retried w t rc cur now :
  Forall (fun ms => ms = 100 \/ 1000 <= ms) (timers t) ->
  (rc <= maxRetries)%nat -> backoffs t = delays rc ->
  retried (continue_with w t rc cur now).2.
Proof.
  intros Ht Hrc Hb. unfold continue_with.
  destruct (build_operations _ _ _); [by split | by apply on_error_retried].
Qed.

Lemma enter_retried w t rc :
  Forall (fun ms => ms = 100 \/ 1000 <= ms) (timers t) ->
  (rc <= maxRetries)%nat -> backoffs t = delays rc ->
  retried (enter w t rc).2.
Proof.
  intros Ht Hrc Hb. unfold enter.
  destruct (updateLocks w !! projectId t).
  - split.
    + cbn. apply Forall_app. split; [done |]. constructor; [by left | done].
    + cbn [pc sleep goto snd]. split; [done |].
      rewrite backoffs_sleep. rewrite decide_False by lia. rewrite app_nil_r.
      unfold backoffs in *. done.
  - destruct (negb _); [by apply on_error_retried |].
    destruct (shouldAddHistory _); [by split | by apply continue_with_retried].
Qed.

(** A step keeps the invariant, in whatever world it is taken. *)
Lemma step_retried w t : retried t -> retried (step w t).2.
Proof.
  intros [Ht Hpc]. unfold step.
  destruct (pc t) as [rc | rc now | rc ops | rc | o] eqn:Hp.
  - destruct Hpc. by apply enter_retried.
  - destruct Hpc. destruct (findOne w (projectId t)) as [[cur | e] w'];
      [by apply continue_with_retried | by apply on_error_retried].
  - destruct Hpc.
    destruct (findOneAndUpdate w (FId (projectId t)) ops) as [[[result |] | e] w'];
      try by apply on_error_retried.
    destruct (log_latest_entry result); [| by apply on_error_retried].
    split; [done |]. cbn. by eexists.
  - destruct Hpc as [Hrc Hb].
    pose proof (enter_retried w t (S rc) Ht Hrc Hb) as H.
    by destruct (enter w t (S rc)).
  - split; [done |]. cbn. by rewrite Hp.
Qed.

Lemma retried_bound t :
  retried t ->
  Forall (fun ms => ms = 100 \/ 1000 <= ms) (timers t)
  /\ exists k, (k <= 3)%nat /\ backoffs t = delays k.
Proof.
  intros [Ht Hpc]. split; [done |]. unfold maxRetries in Hpc.
  destruct (pc t) as [rc | rc now | rc ops | rc | o].
  1-3: exists rc; tauto.
  - exists (S rc). split; [lia | tauto].
  - done.
Qed.

Lemma run_retried n : forall w t, retried t -> retried (run n w t).2.
Proof.
  induction n as [| n IH]; intros w t H; [done |].
  cbn. pose proof (step_retried w t H) as Hs.
  destruct (step w t) as [w' t']. by apply IH.
Qed.

Lemma interleave_retried schedule : forall w a b,
  retried a -> retried b ->
  retried (interleave schedule (w, a, b)).1.2 /\ retried (interleave schedule (w, a, b)).2.
Proof.
  induction schedule as [| second schedule IH]; intros w a b Ha Hb; [done |].
  cbn [interleave fold_left]. unfold sched_step at 2.
  destruct second; apply IH; try done; by apply step_retried.
Qed.

Lemma start_retried id d : retried (update id d).
Proof. split; [constructor |]. cbn. unfold maxRetries. split; [lia | done]. Qed.

(** X5. Whatever the store answers, ProjectService.update never backs off
    more than three times: at every moment the timers that a call has set are
    lock waits of 100 ms or backoff delays, and the backoff delays are 1000,
    2000, ... ms of at most three retries.  The same holds for each of two
    calls that run interleaved under any schedule. *)
Theorem update_retries_at_most_three_times
  (w : World) (id : string) (patch : obj) :
  let bounded (t : Task) :=
    Forall (fun ms => ms = 100 \/ 1000 <= ms) (timers t)
    /\ exists k, (k <= 3)%nat /\ backoffs t = delays k in
  (forall n, bounded (run n w (update id patch)).2)
  /\ (forall schedule id' patch',
        let '(_, a, b) := interleave schedule (w, update id patch, update id' patch') in
        bounded a /\ bounded b).
Proof.
  cbn zeta. split.
  - intros n. apply retried_bound, run_retried, start_retried.
  - intros schedule id' patch'.
    pose proof (interleave_retried schedule w _ _ (start_retried id patch)
                  (start_retried id' patch')) as [Ha Hb].
    destruct (interleave schedule _) as [[w' a] b]. cbn in Ha, Hb.
    split; by apply retried_bound.
Qed.

(** Ten timeouts in a row: the timers are those of three retries. *)
Example ten_timeouts_three_retries :
  let w := set_outage (replicate 10 transient_error)
             (world_of (project "waiting" (costs 1000 1000) [] [created_entry])) in
  let r := run 20 w (update pid {[ "status" := VStr "planning" ]}) in
  timers r.2 = [1000; 100; 2000; 100; 3000; 100]
  /\ backoffs r.2 = delays 3
  /\ outcome r.2 = Some (Rejected transient_error).
Proof. cbn zeta. repeat split; vm_compute; reflexivity. Qed.

(** ** routes/projects.js *)
















(** X7. For one and the same id that is no ObjectId, with no update of that id
    in flight, the three handlers of
    routes/projects.js answer with three different statuses, each with the
    message [Invalid project ID] and without touching the store or
    Cloudinary: GET with 500, PUT with 400 and DELETE with 404. *)
Theorem malformed_id_is_answered_three_ways
  (development : bool) (w : World) (c : Cloudinary) (id : string) (body : obj) :
  ObjectId_isValid id = false ->
  updateLocks w !! id = None ->
  router_get development w id
  = (respond_error 500 "Invalid project ID"
       (if development then Some (PlainError "Invalid project ID") else None), w)
  /\ router_put development 1 w id body
     = (Some (respond_error 400 "Invalid project ID" None), advance 1 w)
  /\ router_delete development w c id = (respond_error 404 "Invalid project ID" None, w, c).
Proof.
  intros Hv Hl. split; [| split].
  - unfold router_get, ProjectService.getById. by rewrite Hv.
  - unfold router_put. rewrite (world_eta w) at 1 2. unfold update.
    rewrite attempt_with_invalid_id by done. done.
  - unfold router_delete, ProjectService.delete. by rewrite Hv.
Qed.

Lemma malformed_id_is_answered_three_ways_witness :
  let w := world_of (project "waiting" ∅ [] []) in
  let c := mkCloudinary (fun _ => Ok VNull) [] in
  status_code (router_get false w "42").1 = 500%nat
  /\ (status_code <$> (router_put false 1 w "42" ∅).1) = Some 400%nat
  /\ status_code (router_delete false w c "42").1.1 = 404%nat.
Proof.
  cbn zeta.
  destruct (malformed_id_is_answered_three_ways false (world_of (project "waiting" ∅ [] []))
              (mkCloudinary (fun _ => Ok VNull) []) "42" ∅ eq_refl eq_refl) as (-> & -> & ->).
  done.
Defined.

(** ** The PUT handler of server.js *)









(** ** The sub-goal cost endpoint: what it touches *)






(** ** The sub-goal cost endpoint: how it fails *)





(** ** The same cost update, sent twice *)





(** ** ImageService: validation *)

Lemma validateImageFile_true file b : ImageService.validateImageFile file = Ok b -> b = true.
Proof.
  unfold ImageService.validateImageFile.
  destruct (prop file "mimetype"); cbn; [| done].
  destruct (negb _); [done |].
  destruct (prop file "size"); cbn; [| done].
  destruct (js_gt _ _); [done |]. by intros [= <-].
Qed.

Lemma validate_each_ok files : forall index,
  ImageService.validate_each index files = Ok tt
  <-> Forall (fun f => ImageService.validateImageFile f = Ok true) files.
Proof.
  induction files as [| f files IH]; intros index; cbn.
  - split; [intros _; constructor | intros _; reflexivity].
  - destruct (ImageService.validateImageFile f) as [b |] eqn:Hf.
    + apply validateImageFile_true in Hf as Hb. subst b. rewrite IH. split.
      * by constructor.
      * by intros [_ ?]%Forall_cons.
    + split; [done |]. intros [? _]%Forall_cons. congruence.
Qed.

Lemma validate_each_first good bad rest error : forall index,
  Forall (fun f => ImageService.validateImageFile f = Ok true) good ->
  ImageService.validateImageFile bad = Throw error ->
  ImageService.validate_each index (good ++ bad :: rest)
  = Throw (PlainError ("File " +:+ pretty (index + Z.of_nat (length good) + 1)
                       +:+ ": " +:+ message error)).
Proof.
  induction good as [| g good IH]; intros index Hg Hb; cbn.
  - rewrite Hb. by rewrite Z.add_0_r.
  - apply Forall_cons in Hg as [Hg1 Hg]. rewrite Hg1. rewrite IH by done.
    by replace (index + 1 + Z.of_nat (length good) + 1)
      with (index + Z.of_nat (S (length good)) + 1) by lia.
Qed.

(** X13. ImageService.validateImageFiles refuses more than 20 files before it
    looks at any of them; it returns [true] exactly when there are at most 20
    files and validateImageFile accepts each; otherwise it throws for the
    first file that is refused, with that file's position counted from 1 and
    the message of its refusal. *)
Theorem validateImageFiles_checks_files_in_order (files : list value) :
  ((20 < length files)%nat ->
   ImageService.validateImageFiles files
   = Throw (PlainError "Too many files. Maximum 20 files allowed."))
  /\ (ImageService.validateImageFiles files = Ok true
      <-> (length files <= 20)%nat
          /\ Forall (fun f => ImageService.validateImageFile f = Ok true) files)
  /\ (forall good bad rest error,
        files = good ++ bad :: rest ->
        (length files <= 20)%nat ->
        Forall (fun f => ImageService.validateImageFile f = Ok true) good ->
        ImageService.validateImageFile bad = Throw error ->
        ImageService.validateImageFiles files
        = Throw (PlainError ("File " +:+ pretty (Z.of_nat (length good) + 1)
                             +:+ ": " +:+ message error))).
Proof.
  unfold ImageService.validateImageFiles, ImageService.maxFiles.
  split; [| split].
  - intros H. assert ((20 <? Z.of_nat (length files)) = true) as -> by (apply Z.ltb_lt; lia).
    done.
  - destruct (20 <? Z.of_nat (length files)) eqn:E.
    + apply Z.ltb_lt in E. split; [done | lia].
    + apply Z.ltb_ge in E. rewrite <- (validate_each_ok files 0).
      destruct (ImageService.validate_each 0 files) as [[] |]; cbn.
      * split; [intros _; split; [lia | done] | done].
      * split; [done | by intros [_ ?]].
  - intros good bad rest error -> Hlen Hg Hb.
    assert ((20 <? Z.of_nat (length (good ++ bad :: rest))) = false) as ->
      by (apply Z.ltb_ge; lia).
    by rewrite (validate_each_first good bad rest error 0).
Qed.

(** A PNG, then a PDF: the second file is refused. *)
Example second_file_refused :
  ImageService.validateImageFiles
    [VObj [("mimetype", VStr "image/png"); ("size", VNum (Fin 1024))];
     VObj [("mimetype", VStr "application/pdf"); ("size", VNum (Fin 1024))];
     VObj [("mimetype", VStr "image/gif"); ("size", VNum (Fin 99999999))]]
  = Throw (PlainError
             "File 2: Invalid file type. Only JPEG, PNG, WebP, and GIF are allowed.").
Proof. vm_compute. reflexivity. Qed.

(** ** ImageService: deletion *)

Lemma deleteImage_spec c publicId :
  (deleteImage c publicId).2 = mkCloudinary (answer c) (requests c ++ [publicId])
  /\ ((exists r, (deleteImage c publicId).1 = Ok r)
      <-> destroyed (answer c (length (requests c))) = true).
Proof.
  unfold deleteImage, destroy, destroyed.
  destruct (answer c (length (requests c))) as [result | e]; cbn.
  - split; [done |]. destruct (prop result "result") as [r | e]; cbn.
    + destruct (strict_eq r (VStr "ok")); cbn; split; try done; [by eexists | by intros []].
    + split; [by intros [] | done].
  - split; [done |]. split; [by intros [] | done].
Qed.

Lemma ImageService_delete_spec c publicId :
  (ImageService.delete c publicId).1
  = (if truthy publicId && destroyed (answer c (length (requests c))) then Ok true
     else Throw (PlainError "Failed to delete image"))
  /\ (ImageService.delete c publicId).2
     = if truthy publicId then mkCloudinary (answer c) (requests c ++ [publicId]) else c.
Proof.
  unfold ImageService.delete.
  destruct (truthy publicId); cbn [negb andb]; [| done].
  destruct (deleteImage_spec c publicId) as [Hc Hr].
  destruct (deleteImage c publicId) as [[r | e] c']; cbn [fst snd] in *; subst c'.
  - destruct Hr as [-> _]; [done | by eexists].
  - destruct (destroyed _); [| done]. by destruct Hr as [_ [r Hr]].
Qed.

Lemma delete_each_spec publicIds : forall c,
  (ImageService.delete_each c publicIds).2
  = mkCloudinary (answer c) (requests c ++ filter (fun p => truthy p = true) publicIds)
  /\ length (ImageService.delete_each c publicIds).1 = length publicIds
  /\ length (filter (fun r => r = true) (ImageService.delete_each c publicIds).1)
     = length (filter (fun a => destroyed a = true)
                 (next_answers c (length (filter (fun p => truthy p = true) publicIds)))).
Proof.
  induction publicIds as [| p publicIds IH]; intros c.
  - cbn. rewrite app_nil_r. by destruct c.
  - cbn [ImageService.delete_each].
    destruct (ImageService_delete_spec c p) as [Hr Hc].
    destruct (ImageService.delete c p) as [r c1]. cbn [fst snd] in Hr, Hc.
    specialize (IH c1).
    destruct (ImageService.delete_each c1 publicIds) as [rs c2]. cbn [fst snd] in *.
    destruct IH as (-> & Hlen & Hcount). rewrite filter_cons.
    destruct (truthy p) eqn:Hp; cbn [andb] in Hr.
    + rewrite decide_True by done. subst c1. cbn [answer requests] in *.
      split; [by rewrite <- app_assoc |]. split; [cbn; lia |].
      unfold next_answers in *. cbn [length seq fmap list_fmap].
      cbn [answer requests] in Hcount. rewrite length_app in Hcount. cbn [length] in Hcount.
      replace (length (requests c) + 1)%nat with (S (length (requests c))) in Hcount by lia.
      rewrite !filter_cons.
      destruct (destroyed (answer c (length (requests c)))) eqn:Hd; subst r.
      * rewrite !decide_True by done. cbn [length]. by rewrite Hcount.
      * rewrite !decide_False by done. done.
    + rewrite decide_False by done. subst c1 r.
      split; [done |]. split; [cbn; lia |].
      rewrite filter_cons, decide_False by done. done.
Qed.

(** X14. ImageService.deleteMultiple never throws for an array of ids: [total]
    is the number of ids, [successful] is the number of requests that
    Cloudinary has answered with [ok], [failed] is the rest, and a request is
    sent, in the order of the array, for exactly the ids that are not empty. *)
Theorem deleteMultiple_counts_destroyed_assets (c : Cloudinary) (publicIds : list value) :
  let sent := filter (fun p => truthy p = true) publicIds in
  exists t,
    (ImageService.deleteMultiple c publicIds).1 = Ok t
    /\ ImageService.total t = Z.of_nat (length publicIds)
    /\ ImageService.successful t
       = Z.of_nat (length (filter (fun a => destroyed a = true)
                             (next_answers c (length sent))))
    /\ ImageService.successful t + ImageService.failed t = ImageService.total t
    /\ 0 <= ImageService.successful t <= Z.of_nat (length sent)
    /\ requests (ImageService.deleteMultiple c publicIds).2 = requests c ++ sent.
Proof.
  cbn zeta. unfold ImageService.deleteMultiple.
  destruct (delete_each_spec publicIds c) as (Hc & Hlen & Hcount).
  destruct (ImageService.delete_each c publicIds) as [results c']. cbn [fst snd] in *.
  eexists. split; [reflexivity |]. cbn [ImageService.total ImageService.successful ImageService.failed].
  rewrite Hcount. subst c'. cbn [requests].
  repeat split; try lia.
  pose proof (length_filter (fun a => destroyed a = true)
                (next_answers c (length (filter (fun p => truthy p = true) publicIds)))) as H.
  unfold next_answers in H at 2. rewrite length_fmap, length_seq in H. lia.
Qed.

(** Three ids, the second one empty, the third unknown to the service. *)
Example two_of_three_deletions_fail :
  let c := mkCloudinary (fun n => if Nat.eqb n 0 then Ok (VObj [("result", VStr "ok")])
                                  else Ok (VObj [("result", VStr "not found")])) [] in
  let r := ImageService.deleteMultiple c [VStr "a"; VStr ""; VStr "b"] in
  r.1 = Ok (ImageService.mkTally 1 2 3) /\ requests r.2 = [VStr "a"; VStr "b"].
Proof. cbn zeta. repeat split; vm_compute; reflexivity. Qed.

(** ** ProjectService.create *)

Lemma new_project_fields d now k :
  is_Some (ProjectService.new_project d now !! k) <-> k ∈ project_fields.
Proof.
  unfold ProjectService.new_project, project_fields.
  rewrite <- elem_of_dom, dom_list_to_map_L, elem_of_list_to_set. done.
Qed.

Lemma new_project_history d now :
  stored_history (bson <$> ProjectService.new_project d now)
  = [VObj [("type", VStr "created");
           ("description", VStr "تم إنشاء المشروع");
           ("timestamp", bson now);
           ("userId", bson (js_or (js_or (field d "userId") (field d "createdBy"))
                              (VStr "unknown")));
           ("userName", bson (js_or (js_or (field d "userName") (field d "createdBy"))
                                (VStr "مستخدم غير معروف")))]].
Proof. reflexivity. Qed.

Lemma new_project_stamps d t :
  (bson <$> ProjectService.new_project d (toISOString t)) !! "createdAt" = Some (toISOString t)
  /\ (bson <$> ProjectService.new_project d (toISOString t)) !! "updatedAt"
     = Some (toISOString t).
Proof. split; reflexivity. Qed.

Lemma insertOne_cases w id doc :
  ((insertOne w id doc).1 = Ok id
   /\ db w !! id = None
   /\ db (insertOne w id doc).2 = <[id := bson <$> doc]> (db w)
   /\ outage w = [])
  \/ ((exists e, (insertOne w id doc).1 = Throw e) /\ db (insertOne w id doc).2 = db w).
Proof.
  unfold insertOne, round_trip.
  destruct (outage w) as [| e es] eqn:Ho; [| right; split; [by eexists | done]].
  destruct (db w !! id) eqn:Hd; [right; split; [by eexists | done] |].
  left. done.
Qed.

Lemma create_healthy w id d :
  outage w = [] -> db w !! id = None ->
  ProjectService.create w id d
  = (Ok (snapshot_of id (ProjectService.new_project d (toISOString (clock w)))),
     tick (set_db (insert id (bson <$> ProjectService.new_project d (toISOString (clock w)))) w)).
Proof.
  intros Ho Hfresh. unfold ProjectService.create, insertOne, round_trip.
  by rewrite Ho, Hfresh.
Qed.

(** X15. ProjectService.create either throws [Failed to create project] and
    stores nothing, or stores under the new id a document with the fifteen
    fields of a project and nothing else, whose [createdAt] and [updatedAt]
    are the time of the call and whose history is one entry of type [created]
    with that timestamp, whatever [history], [createdAt] or other fields the
    request carries.  With a healthy store and a fresh id it does not throw. *)
Theorem create_starts_the_history (w : World) (id : string) (projectData : obj) :
  let r := ProjectService.create w id projectData in
  let now := toISOString (clock w) in
  ((r.1 = Throw (PlainError "Failed to create project") /\ db r.2 = db w)
   \/ exists doc entry,
        r.1 = Ok (snapshot_of id (ProjectService.new_project projectData now))
        /\ db w !! id = None
        /\ db r.2 = <[id := doc]> (db w)
        /\ (forall k, is_Some (doc !! k) <-> k ∈ project_fields)
        /\ doc !! "createdAt" = Some now
        /\ doc !! "updatedAt" = Some now
        /\ stored_history doc = [VObj entry]
        /\ assoc "type" entry = VStr "created"
        /\ assoc "timestamp" entry = now)
  /\ (outage w = [] -> db w !! id = None -> exists project, r.1 = Ok project).
Proof.
  cbn zeta. unfold ProjectService.create. split.
  - destruct (insertOne_cases w id (ProjectService.new_project projectData (toISOString (clock w))))
      as [(Hr & Hfresh & Hdb & _) | [[e Hr] Hdb]];
      destruct (insertOne w id _) as [[id' | e'] w']; cbn [fst snd] in *; try done.
    + injection Hr as ->. right.
      destruct (new_project_stamps projectData (clock w)) as [Hc Hu].
      eexists _, _. split; [reflexivity |]. split; [done |]. split; [exact Hdb |].
      split; [| split; [exact Hc | split; [exact Hu |]]].
      * intros k. rewrite lookup_fmap, fmap_is_Some. apply new_project_fields.
      * split; [apply new_project_history |]. split; reflexivity.
    + left. done.
  - intros Ho Hfresh. unfold insertOne, round_trip. rewrite Ho, Hfresh. by eexists.
Qed.

(** A request that carries a history of its own. *)
Example forged_history_is_ignored :
  let w := world_of (project "waiting" ∅ [] []) in
  let d : obj := <["history" := VArr [VStr "forged"]]> {[ "title" := VStr "Villa" ]} in
  let r := ProjectService.create w "688e043e148561ceaaf4741e" d in
  (fun entry => prop entry "type") <$> history_of r.2 "688e043e148561ceaaf4741e"
  = [Ok (VStr "created")]
  /\ stored_field r.2 "688e043e148561ceaaf4741e" "title" = Some (VStr "Villa").
Proof. cbn zeta. repeat split; vm_compute; reflexivity. Qed.

(** ** Reading a project back *)

Lemma fmap_defined (m : obj) :
  (forall k v, m !! k = Some v -> defined v) -> bson <$> m = m.
Proof.
  intros H. apply map_eq. intros k. rewrite lookup_fmap.
  destruct (m !! k) as [v |] eqn:Hk; [| done]. cbn. f_equal. by eapply H.
Qed.

Lemma snapshot_of_fmap id (doc : obj) :
  snapshot_of id (bson <$> doc) = bson <$> snapshot_of id doc.
Proof. unfold snapshot_of. by rewrite fmap_insert, fmap_delete. Qed.

Lemma getById_healthy w id :
  ObjectId_isValid id = true -> outage w = [] ->
  ProjectService.getById w id = (Ok (snapshot_of id <$> db w !! id), tick w).
Proof.
  intros Hv Ho. unfold ProjectService.getById, findOne, round_trip. rewrite Hv, Ho. cbn.
  by destruct (db w !! id).
Qed.

(** X16. ProjectService.getById of a project that ProjectService.create has
    just returned, under an id that is an ObjectId, resolves with that project, every [undefined] in it read
    back as [null]: it is the same project when the request has left no
    field undefined. *)
Theorem getById_after_create (w : World) (id : string) (projectData : obj) (project : obj) :
  let r := ProjectService.create w id projectData in
  ObjectId_isValid id = true ->
  r.1 = Ok project ->
  (ProjectService.getById r.2 id).1 = Ok (Some (bson <$> project))
  /\ ((forall k v, project !! k = Some v -> defined v) ->
      (ProjectService.getById r.2 id).1 = Ok (Some project)).
Proof.
  cbn zeta. intros Hv. unfold ProjectService.create.
  destruct (insertOne_cases w id (ProjectService.new_project projectData (toISOString (clock w))))
    as [(Hr & Hfresh & Hdb & Ho) | [[e Hr] Hdb]];
    destruct (insertOne w id _) as [[id' | e'] w'] eqn:Hi; cbn [fst snd] in *; try done.
  injection Hr as ->. intros [= <-].
  assert (outage w' = []) as Ho'.
  { unfold insertOne, round_trip in Hi. rewrite Ho in Hi.
    destruct (db w !! id); simplify_eq; done. }
  assert ((ProjectService.getById (tick w') id).1
          = Ok (Some (bson <$> snapshot_of id
                                 (ProjectService.new_project projectData (toISOString (clock w))))))
    as Hget.
  { rewrite getById_healthy by done. cbn [fst db tick]. rewrite Hdb, lookup_insert_eq. cbn.
    by rewrite snapshot_of_fmap. }
  split; [done |]. intros Hdef. rewrite Hget. by rewrite fmap_defined.
Qed.

Lemma getById_after_create_witness :
  let w := world_of (project "waiting" ∅ [] []) in
  let id : string := "688e043e148561ceaaf4741e" in
  let d : obj := <["title" := VStr "Villa"]> {[ "totalCost" := VNum (Fin 1000) ]} in
  let created := snapshot_of id (ProjectService.new_project d (toISOString (clock w))) in
  let r := ProjectService.create w id d in
  r.1 = Ok created
  /\ (ProjectService.getById r.2 id).1 = Ok (Some (bson <$> created))
  /\ field created "customer" = VUndefined
  /\ field (bson <$> created) "customer" = VNull
  /\ field (bson <$> created) "originalCost" = VNum (Fin 1000).
Proof.
  cbn zeta.
  pose proof (f_equal fst
                (create_healthy (world_of (project "waiting" ∅ [] []))
                   "688e043e148561ceaaf4741e"
                   (<["title" := VStr "Villa"]> {[ "totalCost" := VNum (Fin 1000) ]})
                   eq_refl ltac:(vm_compute; reflexivity))) as Hr.
  cbn [fst] in Hr.
  split; [exact Hr |].
  split; [exact (proj1 (getById_after_create _ "688e043e148561ceaaf4741e" _ _ eq_refl Hr))
         | by vm_compute].
Defined.

(** ** ProjectService.delete *)

Lemma getById_cases w id :
  db (ProjectService.getById w id).2 = db w
  /\ match (ProjectService.getById w id).1 with
     | Ok (Some project) =>
         exists doc, db w !! id = Some doc /\ project = snapshot_of id doc
                     /\ ObjectId_isValid id = true
     | Ok None => db w !! id = None /\ ObjectId_isValid id = true
     | Throw _ => True
     end.
Proof.
  unfold ProjectService.getById.
  destruct (ObjectId_isValid id); cbn [negb]; [| done].
  destruct (findOne w id) as [[r | e] w'] eqn:Hf.
  - apply findOne_ok in Hf as (-> & Hdb & _).
    destruct (db w !! id) as [doc |]; cbn; [| done]. split; [done |]. by exists doc.
  - cbn. split; [| done]. unfold findOne in Hf.
    pose proof (round_trip_frame w) as (Hdb & _).
    destruct (round_trip w) as [[[] | ?] ?]; cbn in *; congruence.
Qed.

Lemma snapshot_of_field id doc k : k <> "id" -> k <> "_id" -> field (snapshot_of id doc) k = field doc k.
Proof.
  intros H1 H2. unfold snapshot_of, field.
  rewrite lookup_insert_ne by done. by rewrite lookup_delete_ne.
Qed.

Lemma deleteImage_requests c publicId :
  (deleteImage c publicId).2 = mkCloudinary (answer c) (requests c ++ [publicId]).
Proof.
  unfold deleteImage, destroy. by destruct (answer c (length (requests c))).
Qed.

Lemma cleanup_requests publicIds : forall c,
  fold_left (fun c publicId => (deleteImage c publicId).2) publicIds c
  = mkCloudinary (answer c) (requests c ++ publicIds).
Proof.
  induction publicIds as [| p publicIds IH]; intros c; cbn [fold_left].
  - rewrite app_nil_r. by destruct c.
  - rewrite IH, deleteImage_requests. cbn. by rewrite <- app_assoc.
Qed.


Lemma deleteOne_healthy w id doc :
  outage w = [] -> db w !! id = Some doc ->
  deleteOne w (FId id) = (Ok 1%nat, set_db (base.delete id) w).
Proof. intros Ho Hdoc. unfold deleteOne, round_trip. rewrite Ho. cbn. by rewrite Hdoc. Qed.

(** X17. ProjectService.delete of a stored project, with a healthy store and
    images that are not [null]: whatever Cloudinary answers, the call
    resolves with [true], the project is gone from the collection and one
    destroy request has been sent for each image that has a [publicId], in
    the order of the images. *)
Theorem delete_ignores_cloudinary_failures
  (w : World) (c : Cloudinary) (id : string) (project : obj) (publicIds : list value) :
  ObjectId_isValid id = true ->
  outage w = [] ->
  db w !! id = Some project ->
  image_publicIds project = Some publicIds ->
  let r := ProjectService.delete w c id in
  r.1.1 = Ok true
  /\ db r.1.2 = base.delete id (db w)
  /\ answer r.2 = answer c
  /\ requests r.2 = requests c ++ publicIds.
Proof.
  intros Hv Ho Hdoc Himg. cbn zeta. unfold ProjectService.delete.
  rewrite Hv. cbn [negb]. rewrite getById_healthy by done. rewrite Hdoc.
  cbn [fmap option_fmap option_map].
  rewrite snapshot_of_field by done.
  unfold image_publicIds in Himg.
  destruct (field project "images") as [| | b | n | s | l | fs] eqn:Hf.
  6: { destruct (ProjectService.with_publicId l) as [ids |] eqn:Hids; [| done].
       injection Himg as <-. cbn [truthy andb].
       destruct (js_gt (opt_length (VArr l)) 0) eqn:Hlen.
       - unfold ProjectService.cleanupImages. rewrite Hids.
         rewrite (deleteOne_healthy _ _ project) by done.
         rewrite cleanup_requests. done.
       - assert (l = []) as ->.
         { destruct l; [done |]. cbn in Hlen. unfold js_gt in Hlen. cbn in Hlen.
           apply Z.ltb_ge in Hlen. lia. }
         cbn in Hids. injection Hids as <-.
         rewrite (deleteOne_healthy _ _ project) by done.
         cbn. by rewrite app_nil_r. }
  all: destruct (truthy _ && js_gt _ 0) eqn:Hc; [done |]; injection Himg as <-;
       rewrite (deleteOne_healthy _ _ project) by done; cbn; by rewrite app_nil_r.
Qed.

(** A project with two images, one of them without a public id, and a
    service that refuses every request. *)
Lemma delete_ignores_cloudinary_failures_witness :
  let images := [VObj [("id", VStr "i1"); ("publicId", VStr "p1")];
                 VObj [("id", VStr "i2")]] in
  let w := world_of (<["images" := VArr images]> (project "waiting" ∅ [] [])) in
  let c := mkCloudinary (fun _ => Throw (PlainError "unreachable")) [] in
  let r := ProjectService.delete w c pid in
  r.1.1 = Ok true /\ db r.1.2 = base.delete pid (db w) /\ requests r.2 = [VStr "p1"].
Proof.
  cbn zeta.
  destruct (delete_ignores_cloudinary_failures
              (world_of (<["images" := VArr [VObj [("id", VStr "i1"); ("publicId", VStr "p1")];
                                             VObj [("id", VStr "i2")]]]>
                           (project "waiting" ∅ [] [])))
              (mkCloudinary (fun _ => Throw (PlainError "unreachable")) [])
              pid (<["images" := VArr [VObj [("id", VStr "i1"); ("publicId", VStr "p1")];
                                        VObj [("id", VStr "i2")]]]>
                      (project "waiting" ∅ [] []))
              [VStr "p1"]) as (H1 & H2 & _ & H3);
    [reflexivity | reflexivity | vm_compute; reflexivity | vm_compute; reflexivity |].
  split; [exact H1 |]. split; [exact H2 | exact H3].
Defined.

Lemma cleanupImages_frame c images :
  answer (ProjectService.cleanupImages c images).2 = answer c.
Proof.
  unfold ProjectService.cleanupImages. destruct images as [| | | | | l |]; try done.
  destruct (ProjectService.with_publicId l); [| done]. cbn. by rewrite cleanup_requests.
Qed.


(** ** ProjectService.removeImage *)

Lemma find_by_id_found imageId l : forall image,
  find_by_id imageId l = Ok image -> truthy image = true ->
  is_subgoal imageId image = true /\ image ∈ l.
Proof.
  induction l as [| img l IH]; intros image; cbn; [by intros [= <-] |].
  destruct (prop img "id") as [v |] eqn:Hp; cbn; [| done].
  destruct (strict_eq v (VStr imageId)) eqn:He.
  - intros [= <-] _. split; [| left].
    unfold is_subgoal. destruct img; cbn in Hp; simplify_eq; try done.
    all: destruct (String.eqb _ _); done.
  - intros H Ht. destruct (IH image H Ht). split; [done | by right].
Qed.

Lemma pullImage_cases w id imageId now :
  (db (pullImage w id imageId now).2 = db w
   /\ ((exists e, (pullImage w id imageId now).1 = Throw e) \/ db w !! id = None))
  \/ exists doc doc',
       db w !! id = Some doc
       /\ pull_images imageId doc = Ok doc'
       /\ (pullImage w id imageId now).1 = Ok 1%nat
       /\ db (pullImage w id imageId now).2 = <[id := <["updatedAt" := now]> doc']> (db w).
Proof.
  unfold pullImage, round_trip.
  destruct (outage w); [| left; split; [done | left; by eexists]]. cbn.
  destruct (db w !! id) as [doc |]; [| left; split; [done | by right]].
  destruct (pull_images imageId doc) as [doc' |] eqn:Hp; [| left; split; [done | left; by eexists]].
  right. by exists doc, doc'.
Qed.

(** X19. ProjectService.removeImage that throws has left the collection as it
    was.  When it returns [true], the project is stored and has an image with
    the id; if the first such image has a [publicId], Cloudinary has been
    asked to destroy it and has answered [ok] (otherwise nothing is asked);
    and the stored project has lost every image whose [id] is the id or an
    array that holds it, not only the first, and has a new [updatedAt]. *)
Theorem removeImage_outcomes (w : World) (c : Cloudinary) (id imageId : string) :
  let r := ProjectService.removeImage w c id imageId in
  (forall e, r.1.1 = Throw e -> db r.1.2 = db w)
  /\ (forall b, r.1.1 = Ok b ->
      exists project images image publicId now,
        b = true
        /\ db w !! id = Some project
        /\ field project "images" = VArr images
        /\ find_by_id imageId images = Ok image
        /\ is_subgoal imageId image = true
        /\ prop image "publicId" = Ok publicId
        /\ (if truthy publicId
            then destroyed (answer c (length (requests c))) = true
                 /\ requests r.2 = requests c ++ [publicId]
            else r.2 = c)
        /\ db r.1.2
           = <[id := <["updatedAt" := now]>
                       (<["images" := VArr (filter (fun img => has_id imageId img = false)
                                              images)]> project)]> (db w)).
Proof.
  cbn zeta. unfold ProjectService.removeImage.
  destruct (getById_cases w id) as [Hdb Hget].
  destruct (ProjectService.getById w id) as [[[project |] | e] w1]; cbn [fst snd] in *;
    [| by split | by split].
  destruct Hget as (doc & Hdoc & -> & Hv).
  rewrite snapshot_of_field by done.
  destruct (ProjectService.find_image imageId (field doc "images")) as [image |] eqn:Hfind;
    cbn [bind]; [| by split].
  destruct (truthy image) eqn:Himage; cbn [negb]; [| by split].
  destruct (prop image "publicId") as [publicId |] eqn:Hpid; [| by split].
  assert (exists images, field doc "images" = VArr images /\ find_by_id imageId images = Ok image)
    as (images & Himages & Hfound).
  { unfold ProjectService.find_image in Hfind. destruct (field doc "images"); try done.
    by eexists. }
  apply find_by_id_found in Hfound as Hid; [| done]. destruct Hid as [Hid _].
  set (deleted := if truthy publicId then _ else _).
  assert (db deleted.1.2 = db w
          /\ (forall v, deleted.1.1 = Ok v ->
                if truthy publicId
                then destroyed (answer c (length (requests c))) = true
                     /\ requests deleted.2 = requests c ++ [publicId]
                else deleted.2 = c)) as [Hdb2 Hc2].
  { subst deleted. destruct (truthy publicId); [| done].
    destruct (deleteImage_spec c publicId) as [Hc Hr].
    destruct (deleteImage c publicId) as [r c']. cbn [fst snd] in *.
    split; [done |]. intros v ->. subst c'. split; [| done]. apply Hr. by eexists. }
  clearbody deleted. destruct deleted as [[[v | e] w2] c2]; cbn [fst snd] in *; [| by split].
  specialize (Hc2 v eq_refl).
  destruct (pullImage_cases w2 id imageId (toISOString (clock w2)))
    as [[H Hno] | (doc1 & doc' & Hdoc1 & Hpull & Hr & H)];
    destruct (pullImage w2 id imageId (toISOString (clock w2))) as [[n | e] w3];
    cbn [fst snd db tick] in *.
  - exfalso. destruct Hno as [[e He] | Hno]; [done |]. congruence.
  - split; [intros; congruence | done].
  - split; [done |]. intros b [= <-].
    rewrite Hdb2, Hdoc in Hdoc1. injection Hdoc1 as <-.
    unfold pull_images in Hpull. rewrite Himages in Hpull. injection Hpull as <-.
    exists doc, images, image, publicId, (toISOString (clock w2)).
    rewrite H, Hdb2. done.
  - done.
Qed.

(** Two images share the id: both are removed once Cloudinary has destroyed
    the asset of the first; when Cloudinary refuses, all images stay. *)
Example removeImage_example :
  let images := [VObj [("id", VStr "i1"); ("publicId", VStr "p1")];
                 VObj [("id", VStr "i2"); ("publicId", VStr "p2")];
                 VObj [("id", VStr "i1")]] in
  let w := world_of (<["images" := VArr images]> (project "waiting" ∅ [] [])) in
  let willing := mkCloudinary (fun _ => Ok (VObj [("result", VStr "ok")])) [] in
  let unwilling := mkCloudinary (fun _ => Ok (VObj [("result", VStr "not found")])) [] in
  let removed := ProjectService.removeImage w willing pid "i1" in
  let refused := ProjectService.removeImage w unwilling pid "i1" in
  removed.1.1 = Ok true
  /\ stored_field removed.1.2 pid "images"
     = Some (VArr [VObj [("id", VStr "i2"); ("publicId", VStr "p2")]])
  /\ requests removed.2 = [VStr "p1"]
  /\ refused.1.1 = Throw (PlainError "Failed to delete image: not found")
  /\ db refused.1.2 = db w.
Proof. cbn zeta. repeat split; vm_compute; reflexivity. Qed.

(** ** server.js: creating a project *)

Lemma newProject_stored d images t :
  let doc := bson <$> newProject d images t in
  stored_history doc = []
  /\ field doc "totalGoalsCost" = VNum (Fin 0)
  /\ field doc "totalCost" = VNum (Fin (num_or (Number (field d "totalCost")) 0))
  /\ field doc "originalCost"
     = VNum (Fin (num_or (Number (field d "originalCost"))
                    (num_or (Number (field d "totalCost")) 0)))
  /\ field doc "images" = VArr (map bson images)
  /\ field doc "id" = VStr (pretty t)
  /\ field doc "subgoals"
     = bson (if isArray (field d "subgoals") then field d "subgoals" else VArr []).
Proof. cbn zeta. repeat split; reflexivity. Qed.

Lemma insertOne_spec w id doc r w' :
  insertOne w id doc = (r, w') ->
  (r = Ok id /\ db w !! id = None /\ db w' = <[id := bson <$> doc]> (db w)
   /\ outage w = [] /\ outage w' = [] /\ clock w' = clock w)
  \/ ((exists e, r = Throw e) /\ db w' = db w).
Proof.
  unfold insertOne, round_trip.
  destruct (outage w) as [| e es] eqn:Ho; [| intros [= <- <-]; right; split; [by eexists | done]].
  destruct (db w !! id) eqn:Hd; intros [= <- <-];
    [right; split; [by eexists | done] | left; done].
Qed.

(** X20. POST /api/projects of server.js answers 400 and writes nothing when
    [title] or [customer] is missing or falsy.  It writes only when it answers
    200, and then it has inserted one document under a fresh ObjectId: with
    an empty history, [totalGoalsCost] 0, numbers as [totalCost] and
    [originalCost] (the latter 0 only if the former is), arrays as [subgoals]
    and [images], and the time of the call as the field [id], while the
    answer carries the ObjectId as [id]. *)
Theorem post_project_outcomes (w : World) (id : string) (projectData : obj) :
  let r := post_project w id projectData in
  (truthy (field projectData "title") = false \/ truthy (field projectData "customer") = false ->
   r = (respond_error 400 "Missing required fields: title and customer are required" None, w))
  /\ (status_code r.1 <> 200%nat -> db r.2 = db w)
  /\ (status_code r.1 = 200%nat ->
      exists doc total original subgoals images,
        db w !! id = None
        /\ db r.2 = <[id := doc]> (db w)
        /\ stored_history doc = []
        /\ field doc "totalGoalsCost" = VNum (Fin 0)
        /\ field doc "totalCost" = VNum (Fin total)
        /\ field doc "originalCost" = VNum (Fin original)
        /\ (original = 0 -> total = 0)
        /\ field doc "subgoals" = VArr subgoals
        /\ field doc "images" = VArr images
        /\ field doc "id" = VStr (pretty (clock w))
        /\ exists d, data r.1 = Some d /\ field d "id" = VStr id).
Proof.
  cbn zeta. unfold post_project.
  destruct (negb (truthy (field projectData "title"))
            || negb (truthy (field projectData "customer"))) eqn:Hreq.
  { split; [done |]. split; [done |]. done. }
  split.
  { intros [H | H]; rewrite H in Hreq; cbn in Hreq; [done |].
    by rewrite orb_true_r in Hreq. }
  set (imgs := match field projectData "images" with VArr l => _ | _ => _ end).
  destruct imgs as [images | e]; cbn [bind]; [| by split].
  destruct (insertOne w id (newProject projectData images (clock w))) as [res w'] eqn:Hi.
  apply insertOne_spec in Hi as [(-> & Hfresh & Hdb & _) | [[e ->] Hdb]]; [| by split].
  cbn [fst snd status_code db tick]. split; [done |]. intros _.
  destruct (newProject_stored projectData images (clock w))
    as (Hh & Hg & Ht & Ho & Himg & Hid & Hsub).
  assert (exists subgoals,
             field (bson <$> newProject projectData images (clock w)) "subgoals" = VArr subgoals)
    as [subgoals Hsubgoals].
  { rewrite Hsub. destruct (field projectData "subgoals"); cbn; by eexists. }
  eexists (bson <$> newProject projectData images (clock w)), _, _, subgoals, _.
  split; [done |]. split; [done |]. split; [exact Hh |]. split; [exact Hg |].
  split; [exact Ht |]. split; [exact Ho |]. split.
  { destruct (Number (field projectData "originalCost")) as [z |]; cbn; [| done].
    destruct (z =? 0) eqn:E; [done |]. apply Z.eqb_neq in E. done. }
  split; [exact Hsubgoals |].
  split; [exact Himg |]. split; [exact Hid |].
  eexists. split; [reflexivity |]. unfold field. by rewrite lookup_insert_eq.
Qed.

(** ** server.js: the two ids of a project *)

Lemma strict_eq_str v s : strict_eq v (VStr s) = true <-> v = VStr s.
Proof.
  destruct v; cbn; try (split; [done | congruence]).
  rewrite String.eqb_eq. split; congruence.
Qed.

Lemma head_unique {A} (l : list A) x :
  x ∈ l -> (forall y, y ∈ l -> y = x) -> head l = Some x.
Proof.
  destruct l as [| y l]; [by intros ?%elem_of_nil |].
  intros _ H. cbn. f_equal. apply H. by left.
Qed.

Lemma select_by_field docs k s oid doc :
  docs !! oid = Some doc ->
  field doc k = VStr s ->
  (forall id' doc', docs !! id' = Some doc' -> field doc' k = VStr s -> id' = oid) ->
  select (FField k (VStr s)) docs = Some (oid, doc).
Proof.
  intros Hdoc Hk Huniq. cbn. apply head_unique.
  - apply list_elem_of_filter. split; [cbn; by apply strict_eq_str |].
    by apply elem_of_map_to_list.
  - intros [id' doc'] [Hp Hin]%list_elem_of_filter. cbn in Hp.
    apply strict_eq_str in Hp. apply elem_of_map_to_list in Hin.
    assert (id' = oid) as -> by (by eapply Huniq). congruence.
Qed.

Lemma select_by_field_none docs k s :
  (forall id' doc', docs !! id' = Some doc' -> field doc' k <> VStr s) ->
  select (FField k (VStr s)) docs = None.
Proof.
  intros Hno. cbn.
  destruct (filter _ _) as [| [id' doc'] l] eqn:Hf; [done |]. exfalso.
  assert ((id', doc') ∈ filter (fun kd : string * obj => strict_eq (field kd.2 k) (VStr s) = true)
                          (map_to_list docs)) as Hin by (rewrite Hf; by left).
  apply list_elem_of_filter in Hin as [Hp Hin]. cbn in Hp.
  apply strict_eq_str in Hp. apply elem_of_map_to_list in Hin. by eapply Hno.
Qed.

Lemma findOneBy_healthy w f : outage w = [] -> findOneBy w f = (Ok (select f (db w)), w).
Proof. intros Ho. unfold findOneBy, round_trip. by rewrite Ho. Qed.

(** X21. A stored project whose field [id] is a string that is no ObjectId, and
    that no other project has, is served by GET /api/projects/:id and removed
    by DELETE /api/projects/:id of server.js under either of its two ids, the
    ObjectId and the field [id], with the same answers (healthy store). *)
Theorem project_answers_to_both_ids (w : World) (oid sid : string) (doc : obj) :
  outage w = [] ->
  ObjectId_isValid oid = true ->
  ObjectId_isValid sid = false ->
  db w !! oid = Some doc ->
  field doc "id" = VStr sid ->
  (forall id' doc', db w !! id' = Some doc' -> field doc' "id" = VStr sid -> id' = oid) ->
  let found := mkResponse 200 true "Project retrieved successfully" None
                 (Some (formatted oid doc)) in
  let deleted := mkResponse 200 true "Project deleted successfully from database" None None in
  (get_project w oid).1 = found
  /\ (get_project w sid).1 = found
  /\ (delete_project w oid).1 = deleted /\ db (delete_project w oid).2 = base.delete oid (db w)
  /\ (delete_project w sid).1 = deleted /\ db (delete_project w sid).2 = base.delete oid (db w).
Proof.
  intros Ho Hv Hs Hdoc Hid Huniq. cbn zeta.
  pose proof (select_by_field _ _ _ _ _ Hdoc Hid Huniq) as Hsel.
  unfold get_project, delete_project, by_either_id, findOneBy, deleteOne, round_trip.
  rewrite Hv, Hs. cbn [tick outage db]. rewrite Ho, Hsel. cbn [select]. rewrite Hdoc. cbn.
  done.
Qed.

Lemma project_answers_to_both_ids_witness :
  let doc : obj := <["id" := VStr "1722600000000"]> (project "waiting" ∅ [] []) in
  let w := world_of doc in
  status_code (get_project w pid).1 = 200%nat
  /\ (get_project w "1722600000000").1 = (get_project w pid).1
  /\ db (delete_project w "1722600000000").2 = ∅.
Proof.
  cbn zeta.
  destruct (project_answers_to_both_ids
              (world_of (<["id" := VStr "1722600000000"]> (project "waiting" ∅ [] [])))
              pid "1722600000000"
              (<["id" := VStr "1722600000000"]> (project "waiting" ∅ [] [])))
    as (H1 & H2 & _ & _ & _ & H3);
    [reflexivity | reflexivity | reflexivity | vm_compute; reflexivity | vm_compute; reflexivity
     | |].
  - intros id' doc' Hd _. unfold world_of in Hd. cbn [db] in Hd.
    apply lookup_singleton_Some in Hd as [? _]. done.
  - rewrite H1, H2, H3. split; [reflexivity |]. split; [reflexivity |].
    unfold world_of. cbn [db]. apply delete_singleton_eq.
Defined.

Lemma formatted_newProject oid d images t :
  formatted oid (bson <$> newProject d images t)
  = bson <$> (<["id" := VStr oid]> (newProject d images t)).
Proof.
  unfold formatted. rewrite fmap_insert. cbn [bson]. f_equal.
  destruct (newProject_stored d images t) as (Hh & _ & _ & _ & Himg & _ & Hsub).
  cbn zeta in *.
  assert (field (bson <$> newProject d images t) "history" = VArr []) as Hhist by reflexivity.
  rewrite Hhist, Himg, Hsub.
  assert (js_or (bson (if isArray (field d "subgoals") then field d "subgoals" else VArr []))
            (VArr [])
          = bson (if isArray (field d "subgoals") then field d "subgoals" else VArr [])) as ->
    by (by destruct (field d "subgoals")).
  cbn [js_or truthy].
  rewrite (insert_id _ "history") by reflexivity.
  rewrite (insert_id _ "images") by reflexivity.
  by rewrite (insert_id _ "subgoals") by reflexivity.
Qed.

(** X22. A project created by POST /api/projects has two ids: the answer names
    the ObjectId as [id], while the stored field [id] is the time of the
    call.  When that time is no ObjectId and is the [id] of no other project,
    GET /api/projects/:id returns for either id what POST has answered, every
    [undefined] in it read back as [null]. *)
Theorem get_project_after_post (w : World) (oid : string) (projectData : obj) :
  let r := post_project w oid projectData in
  let sid : string := pretty (clock w) in
  status_code r.1 = 200%nat ->
  ObjectId_isValid oid = true ->
  ObjectId_isValid sid = false ->
  (forall id' doc', db w !! id' = Some doc' -> field doc' "id" <> VStr sid) ->
  exists created,
    data r.1 = Some created
    /\ field created "id" = VStr oid
    /\ stored_field r.2 oid "id" = Some (VStr sid)
    /\ (get_project r.2 oid).1
       = mkResponse 200 true "Project retrieved successfully" None (Some (bson <$> created))
    /\ (get_project r.2 sid).1 = (get_project r.2 oid).1.
Proof.
  cbn zeta. intros Hok Hv Hs Hfresh. unfold post_project in *.
  destruct (negb _ || negb _); [done |].
  set (imgs := match field projectData "images" with VArr l => _ | _ => _ end) in *.
  destruct imgs as [images | e]; cbn [bind] in *; [| done].
  destruct (insertOne w oid (newProject projectData images (clock w))) as [res w'] eqn:Hi.
  apply insertOne_spec in Hi as [(-> & Hnew & Hdb & _ & Ho & _) | [[e ->] Hdb]]; [| done].
  cbn [fst snd data] in *.
  set (doc := bson <$> newProject projectData images (clock w)) in *.
  assert (db (tick w') !! oid = Some doc) as Hdoc by (cbn; by rewrite Hdb, lookup_insert_eq).
  assert (field doc "id" = VStr (pretty (clock w))) as Hid by reflexivity.
  assert (forall id' doc', db (tick w') !! id' = Some doc' ->
                           field doc' "id" = VStr (pretty (clock w)) -> id' = oid) as Huniq.
  { intros id' doc'. cbn. rewrite Hdb. intros Hd Hf.
    destruct (decide (id' = oid)) as [| Hne]; [done |].
    rewrite lookup_insert_ne in Hd by done. by destruct (Hfresh _ _ Hd). }
  pose proof (select_by_field _ _ _ _ _ Hdoc Hid Huniq) as Hsel.
  exists (<["id" := VStr oid]> (newProject projectData images (clock w))).
  split; [done |]. split; [unfold field; by rewrite lookup_insert_eq |].
  split; [unfold stored_field; by rewrite Hdoc |].
  rewrite <- formatted_newProject. fold doc.
  unfold get_project, by_either_id. rewrite Hv, Hs.
  rewrite !findOneBy_healthy by done. rewrite Hsel. cbn [select]. rewrite Hdoc.
  done.
Qed.

Lemma get_project_after_post_witness :
  let w := world_of (project "waiting" ∅ [] []) in
  let body : obj := <["title" := VStr "Villa"]> {[ "customer" := VObj [("name", VStr "A")] ]} in
  let r := post_project w "688e043e148561ceaaf4741e" body in
  status_code r.1 = 200%nat
  /\ exists created,
       data r.1 = Some created
       /\ field created "id" = VStr "688e043e148561ceaaf4741e"
       /\ stored_field r.2 "688e043e148561ceaaf4741e" "id" = Some (VStr "0")
       /\ (get_project r.2 "688e043e148561ceaaf4741e").1
          = mkResponse 200 true "Project retrieved successfully" None (Some (bson <$> created))
       /\ (get_project r.2 "0").1 = (get_project r.2 "688e043e148561ceaaf4741e").1.
Proof.
  cbn zeta.
  assert (status_code
            (post_project (world_of (project "waiting" ∅ [] [])) "688e043e148561ceaaf4741e"
               (<["title" := VStr "Villa"]> {[ "customer" := VObj [("name", VStr "A")] ]})).1
          = 200%nat) as Hok by (vm_compute; reflexivity).
  split; [exact Hok |].
  apply (get_project_after_post (world_of (project "waiting" ∅ [] []))
           "688e043e148561ceaaf4741e"
           (<["title" := VStr "Villa"]> {[ "customer" := VObj [("name", VStr "A")] ]}) Hok);
    [reflexivity | reflexivity |].
  intros id' doc' Hd. unfold world_of in Hd. cbn [db] in Hd.
  apply lookup_singleton_Some in Hd as [_ <-]. by vm_compute.
Defined.
